(** * Sora 2 watermark remover: a shallow embedding of [app/watermark_removal.py]
      and of the upload check of [app/main.py].

    Conventions of the embedding.
    - Python [float] scores, confidences, thresholds and frame rates are
      rationals [Q]: the source only compares them ([<], [>=]) and tests them
      for zero, and on finite floats these agree with the order of [Q].
    - A [numpy] 2-D array is a list of rows; [shape] is (rows, columns).
    - A [pathlib.Path] is the tuple of its [parts].
    - The file system is a finite map from paths to files plus a set of
      directories; a job threads it explicitly.
    - Exceptions are the [Raise] results of the [outcome] type.
    - OpenCV is outside the repository.  Its pure array operations with an
      exact integer meaning ([minMaxLoc], [dilate]) are written out; the
      numerical kernels (the correlation score, the gray conversion, the
      inpainting) and the codec (whether a writer opens, how large the encoded
      file is, what it decodes to) are the fields of the record [Env].
    - A Python [str] is the string of its UTF-8 bytes.  The source only
      compares lower-cased text with ASCII constants, and [lower] is
      [str.lower] up to what such a comparison can tell. *)

From Stdlib Require Import ZArith QArith Bool Ascii String.
From stdpp Require Import base option list strings gmap.

(** ** Exceptions *)

Inductive exn : Type :=
| WatermarkRemovalError (msg : string)
| Cv2Error
| OSError.

Inductive outcome (A : Type) : Type :=
| Ok (a : A)
| Raise (e : exn).
Arguments Ok {A} a.
Arguments Raise {A} e.

#[global] Instance outcome_ret : MRet outcome := fun A a => Ok a.
#[global] Instance outcome_bind : MBind outcome := fun A B k m =>
  match m with
  | Ok a => k a
  | Raise e => Raise e
  end.

(** ** Arrays *)

Definition gray := list (list Z).
Definition pixel := (Z * Z * Z)%type.
Definition frame := list (list pixel).

Definition shape {A} (m : list (list A)) : nat * nat :=
  (length m, length (hd [] m)).

Definition tabulate {A} (H W : nat) (f : nat -> nat -> A) : list (list A) :=
  map (fun r => map (f r) (seq 0 W)) (seq 0 H).

Definition get {A} (d : A) (m : list (list A)) (r c : nat) : A :=
  nth c (nth r m []) d.

(** ** Detections (lines 15-25) *)

Record WatermarkDetection : Type := {
  top_left : Z * Z;
  size : Z * Z;
  confidence : Q
}.

Definition bbox (d : WatermarkDetection) : Z * Z * Z * Z :=
  let '(x, y) := top_left d in
  let '(w, h) := size d in
  (x, y, w, h).

(** Python's [a < b] on scores. *)
Definition Qltb (a b : Q) : bool := negb (Qle_bool b a).

(** ** Paths ([pathlib], POSIX flavour) *)

Abbreviation Path := (list string).

Fixpoint split (sep : ascii) (s : string) : list string :=
  match s with
  | EmptyString => [EmptyString]
  | String c rest =>
      if Ascii.eqb c sep then EmptyString :: split sep rest
      else match split sep rest with
           | [] => [String c EmptyString]
           | part :: parts => String c part :: parts
           end
  end.

(** [Path(s)]: empty and [.] components are dropped, a leading slash is the
    root part. *)
Definition Path_of (s : string) : Path :=
  (match s with
   | String "/" _ => ["/"%string]
   | _ => []
   end) ++
  filter (fun part => negb (String.eqb part "") && negb (String.eqb part ".")) (split "/" s).

(** [path.name]: the last part, unless it is the root. *)
Definition name (p : Path) : string :=
  match last p with
  | Some n => if String.eqb n "/" then EmptyString else n
  | None => EmptyString
  end.

(** [str.rfind]: the index of the last occurrence of a character. *)
Fixpoint rfind (c : ascii) (s : string) : option nat :=
  match s with
  | EmptyString => None
  | String a rest =>
      match rfind c rest with
      | Some i => Some (S i)
      | None => if Ascii.eqb a c then Some 0%nat else None
      end
  end.

(** [path.suffix] and [path.stem]: the name is cut at its last dot when that
    dot is neither its first nor its last character. *)
Definition suffix (p : Path) : string :=
  let n := name p in
  match rfind "." n with
  | Some i =>
      if (0 <? i)%nat && (i <? String.length n - 1)%nat
      then substring i (String.length n - i) n
      else EmptyString
  | None => EmptyString
  end.

Definition stem (p : Path) : string :=
  let n := name p in
  match rfind "." n with
  | Some i =>
      if (0 <? i)%nat && (i <? String.length n - 1)%nat
      then substring 0 i n
      else n
  | None => n
  end.

(** [str.lower], on a string held as UTF-8 bytes, as far as a comparison with
    ASCII text can tell: the letters A-Z are lowered, and U+212A KELVIN SIGN
    (bytes 226 132 170), the one other code point whose lower case is ASCII
    text, becomes k.  Every other byte is left as it is. *)
Definition lower_ascii (c : ascii) : ascii :=
  let n := nat_of_ascii c in
  if (65 <=? n)%nat && (n <=? 90)%nat then ascii_of_nat (n + 32) else c.

Definition is_kelvin (a b c : ascii) : bool :=
  Ascii.eqb a (ascii_of_nat 226) && Ascii.eqb b (ascii_of_nat 132) &&
  Ascii.eqb c (ascii_of_nat 170).

Fixpoint lower (s : string) : string :=
  match s with
  | EmptyString => EmptyString
  | String a rest =>
      match rest with
      | String b (String c rest') =>
          if is_kelvin a b c then String "k" (lower rest')
          else String (lower_ascii a) (lower rest)
      | _ => String (lower_ascii a) (lower rest)
      end
  end.

(** [dir / name]. *)
Definition joinpath (dir : Path) (n : string) : Path := dir ++ [n].

(** ** The file system *)

Record video : Type := {
  CAP_PROP_FPS : Q;
  CAP_PROP_FRAME_WIDTH : Z;
  CAP_PROP_FRAME_HEIGHT : Z;
  frames : list frame
}.

(** A file: its size in bytes and what the decoders make of it
    ([cv2.imread] with IMREAD_GRAYSCALE, [cv2.VideoCapture]). *)
Record file : Type := {
  st_size : N;
  as_image : option gray;
  as_video : option video
}.

Record world : Type := {
  files : gmap Path file;
  dirs : gset Path
}.

Definition path_exists (w : world) (p : Path) : bool :=
  bool_decide (is_Some (files w !! p)) || bool_decide (p ∈ dirs w).

(** [path.unlink(missing_ok=True)]. *)
Definition unlink (p : Path) (w : world) : world :=
  {| files := delete p (files w); dirs := dirs w |}.

Definition prefixes (p : Path) : list Path :=
  map (fun n => take n p) (seq 1 (length p)).

(** [path.mkdir(parents=True, exist_ok=True)]: fails when the path or one of
    its parents is a file. *)
Definition mkdir (p : Path) (w : world) : outcome world :=
  if existsb (fun q => bool_decide (is_Some (files w !! q))) (prefixes p)
  then Raise OSError
  else Ok {| files := files w; dirs := dirs w ∪ list_to_set (prefixes p) |}.

(** ** The environment: the deployment and the OpenCV build *)

Record Env : Type := {
  (** two directories above the module's file *)
  BASE_DIR : Path;
  (** [score image templ x y]: the TM_CCOEFF_NORMED correlation of [templ]
      placed with its top-left corner at column [x], row [y] of [image] *)
  score : gray -> gray -> Z -> Z -> Q;
  (** COLOR_BGR2GRAY on one pixel *)
  bgr2gray : pixel -> Z;
  (** [cv2.inpaint] with radius 3 and INPAINT_TELEA *)
  inpaint : frame -> list (list Z) -> frame;
  (** whether [cv2.VideoWriter(path, mp4v, fps, frame_size)] opens *)
  writer_opens : Path -> Q -> Z * Z -> bool;
  (** size in bytes of the released mp4 *)
  encoded_size : Q -> Z * Z -> list frame -> N;
  (** the frame size a capture reports for the released mp4 (the codec may
      store another size than the one the writer was opened with) *)
  decoded_size : Z * Z -> Z * Z;
  (** the frames a capture decodes from the released mp4 (the codec is
      lossy) *)
  decoded_frames : Q -> Z * Z -> list frame -> list frame
}.

Definition DEFAULT_TEMPLATE (env : Env) : Path :=
  joinpath (joinpath (BASE_DIR env) "assets") "sora2_template.pgm".

(** ** Template store (lines 31-40) *)

Definition _load_template (w : world) (template_path : Path) : outcome gray :=
  if negb (path_exists w template_path) then
    Raise (WatermarkRemovalError
      "Watermark template not found. Please provide 'sora2_template.pgm' in the assets directory.")
  else
    match files w !! template_path ≫= as_image with
    | None => Raise (WatermarkRemovalError "Unable to read watermark template image")
    | Some template => Ok template
    end.

(** ** Detector *)

(** [cv2.minMaxLoc]: the maximum of a matrix and its (x, y) position, the
    first one in row-major order.  The source discards the minimum. *)

Definition entries (m : list (list Q)) : list (Q * (Z * Z)) :=
  concat (imap (fun r row => imap (fun c v => (v, (Z.of_nat c, Z.of_nat r))) row) m).

Definition better (best : option (Q * (Z * Z))) (e : Q * (Z * Z)) : option (Q * (Z * Z)) :=
  match best with
  | None => Some e
  | Some b => if Qltb (fst b) (fst e) then Some e else Some b
  end.

Definition minMaxLoc (m : list (list Q)) : option (Q * (Z * Z)) :=
  fold_left better (entries m) None.

(** [cv2.matchTemplate]: one score per alignment of the template inside the
    image.  When the image is smaller than the template in a dimension OpenCV
    exchanges the two, which it only accepts when the image is no larger in
    both dimensions. *)
Definition matchTemplate (env : Env) (image templ : gray) : outcome (list (list Q)) :=
  let '(H, W) := shape image in
  let '(h, w) := shape templ in
  if (H <? h)%nat || (W <? w)%nat then
    if (H <=? h)%nat && (W <=? w)%nat
    then Ok (tabulate (h - H + 1) (w - W + 1)
               (fun r c => score env templ image (Z.of_nat c) (Z.of_nat r)))
    else Raise Cv2Error
  else Ok (tabulate (H - h + 1) (W - w + 1)
             (fun r c => score env image templ (Z.of_nat c) (Z.of_nat r))).

(** Lines 43-51. *)
Definition _detect_watermark (env : Env) (gray_frame template : gray) (threshold : Q)
  : outcome (option WatermarkDetection) :=
  result ← matchTemplate env gray_frame template;
  match minMaxLoc result with
  | None => Raise Cv2Error
  | Some (max_val, max_loc) =>
      if Qltb max_val threshold then Ok None
      else
        let '(h, w) := shape template in
        Ok (Some {| top_left := (fst max_loc, snd max_loc);
                    size := (Z.of_nat w, Z.of_nat h);
                    confidence := max_val |})
  end.

(** ** Mask builder (lines 54-61) *)

(** A bound of a [numpy] slice over an axis of length [n]: negative bounds
    count from the end, and the result is clipped to the axis. *)
Definition slice_bound (n : nat) (i : Z) : Z :=
  if (i <? 0)%Z then Z.max (i + Z.of_nat n) 0 else Z.min i (Z.of_nat n).

Definition in_slice (n : nat) (start stop : Z) (i : nat) : bool :=
  (slice_bound n start <=? Z.of_nat i)%Z && (Z.of_nat i <? slice_bound n stop)%Z.

(** [m[y0:y1, x0:x1] = v]. *)
Definition set_block (m : list (list Z)) (y0 y1 x0 x1 : Z) (v : Z) : list (list Z) :=
  let '(H, W) := shape m in
  tabulate H W (fun r c =>
    if in_slice H y0 y1 r && in_slice W x0 x1 c then v else get 0%Z m r c).

(** A pixel read by a morphological filter: outside the image it does not
    count, which for a maximum over bytes is the value 0. *)
Definition get_border (m : list (list Z)) (r c : Z) : Z :=
  let '(H, W) := shape m in
  if (0 <=? r)%Z && (r <? Z.of_nat H)%Z && (0 <=? c)%Z && (c <? Z.of_nat W)%Z
  then get 0%Z m (Z.to_nat r) (Z.to_nat c)
  else 0%Z.

(** The offsets of a [k] by [k] kernel of ones around its centre. *)
Definition kernel_offsets (k : nat) : list Z :=
  map (fun i => (Z.of_nat i - Z.of_nat (k / 2))%Z) (seq 0 k).

(** [cv2.dilate(m, np.ones((k, k)), iterations=1)]: every pixel becomes the
    maximum over the kernel window around it. *)
Definition dilate (m : list (list Z)) (k : nat) : list (list Z) :=
  let '(H, W) := shape m in
  tabulate H W (fun r c =>
    foldr Z.max 0%Z
      (dr ← kernel_offsets k; dc ← kernel_offsets k;
       [get_border m (Z.of_nat r + dr) (Z.of_nat c + dc)])).

Definition _build_inpaint_mask (frame_shape : nat * nat) (detection : WatermarkDetection)
  : list (list Z) :=
  let mask := tabulate (fst frame_shape) (snd frame_shape) (fun _ _ => 0%Z) in
  let '(x, y, w, h) := bbox detection in
  let mask := set_block mask y (y + h) x (x + w) 255 in
  dilate mask 5.

(** ** Pipeline driver (lines 64-129) *)

(** [cv2.cvtColor(frame, cv2.COLOR_BGR2GRAY)]. *)
Definition cvtColor (env : Env) (fr : frame) : gray := map (map (bgr2gray env)) fr.

(** The state of a [cv2.VideoWriter]: where it writes, at which rate and
    size, and the frames it was given. *)
Record VideoWriter : Type := {
  w_path : Path;
  w_fps : Q;
  w_frame_size : Z * Z;
  w_frames : list frame
}.

Definition write (writer : VideoWriter) (fr : frame) : VideoWriter :=
  {| w_path := w_path writer; w_fps := w_fps writer;
     w_frame_size := w_frame_size writer; w_frames := w_frames writer ++ [fr] |}.

(** The file a writer leaves behind: a video at the writer's rate, with the
    frame size and the frames the codec makes of what it was given. *)
Definition encoded (env : Env) (writer : VideoWriter) : file :=
  {| st_size := encoded_size env (w_fps writer) (w_frame_size writer) (w_frames writer);
     as_image := None;
     as_video :=
       Some {| CAP_PROP_FPS := w_fps writer;
               CAP_PROP_FRAME_WIDTH := fst (decoded_size env (w_frame_size writer));
               CAP_PROP_FRAME_HEIGHT := snd (decoded_size env (w_frame_size writer));
               frames := decoded_frames env (w_fps writer) (w_frame_size writer)
                           (w_frames writer) |} |}.

(** Opening a writer creates (or truncates) its file. *)
Definition created : file := {| st_size := 0; as_image := None; as_video := None |}.

(** [writer.release()]. *)
Definition release (env : Env) (writer : VideoWriter) (w : world) : world :=
  {| files := <[w_path writer := encoded env writer]> (files w); dirs := dirs w |}.

Definition msg_no_input : string := "Input video does not exist".
Definition msg_no_capture : string := "Could not open input video".
Definition msg_no_writer : string := "Could not initialise video writer".
Definition msg_not_found : string :=
  "Unable to detect the Sora 2 watermark. Try adjusting the template or threshold.".
Definition msg_no_output : string := "Failed to generate cleaned video".

(** Lines 115-117: what the tracked detection becomes when a later frame
    yields the candidate [updated]. *)
Definition tracker_update (detection : WatermarkDetection) (updated : option WatermarkDetection)
  : WatermarkDetection :=
  match updated with
  | Some u => if Qle_bool (confidence detection) (confidence u) then u else detection
  | None => detection
  end.

(** Lines 98-121: the frame loop, over the frames the capture still holds. *)
Fixpoint frame_loop (env : Env) (template : gray) (threshold : Q) (w : world)
    (writer : VideoWriter) (detection : option WatermarkDetection) (capture : list frame)
  : outcome VideoWriter * world :=
  match capture with
  | [] => (Ok writer, w)
  | fr :: capture =>
      let gray := cvtColor env fr in
      let tracked :=
        match detection with
        | None =>
            match _detect_watermark env gray template threshold with
            | Raise e => (Raise e, w)
            | Ok None =>
                (Raise (WatermarkRemovalError msg_not_found),
                 unlink (w_path writer) (release env writer w))
            | Ok (Some d) => (Ok d, w)
            end
        | Some current =>
            match _detect_watermark env gray template threshold with
            | Raise e => (Raise e, w)
            | Ok updated => (Ok (tracker_update current updated), w)
            end
        end in
      match tracked with
      | (Raise e, w) => (Raise e, w)
      | (Ok d, w) =>
          let mask := _build_inpaint_mask (shape gray) d in
          let cleaned := inpaint env fr mask in
          frame_loop env template threshold w (write writer cleaned) (Some d) capture
      end
  end.

(** What the opening phase hands to the loop. *)
Record job : Type := {
  j_template : gray;
  j_capture : video;
  j_writer : VideoWriter
}.

(** Line 81: [capture.get(cv2.CAP_PROP_FPS) or 30.0]. *)
Definition fps_or_default (reported : Q) : Q :=
  if Qeq_bool reported 0 then 30 else reported.

Definition output_path_of (input_path output_dir : Path) : Path :=
  joinpath output_dir (stem input_path +:+ "_clean.mp4").

(** Lines 72-94. *)
Definition opening (env : Env) (w : world) (input_path output_dir : Path)
    (template_path : option Path) : outcome job * world :=
  if negb (path_exists w input_path) then (Raise (WatermarkRemovalError msg_no_input), w)
  else
    match _load_template w (default (DEFAULT_TEMPLATE env) template_path) with
    | Raise e => (Raise e, w)
    | Ok template =>
        match files w !! input_path ≫= as_video with
        | None => (Raise (WatermarkRemovalError msg_no_capture), w)
        | Some capture =>
            let fps := fps_or_default (CAP_PROP_FPS capture) in
            let width := CAP_PROP_FRAME_WIDTH capture in
            let height := CAP_PROP_FRAME_HEIGHT capture in
            let frame_size := (width, height) in
            match mkdir output_dir w with
            | Raise e => (Raise e, w)
            | Ok w =>
                let output_path := output_path_of input_path output_dir in
                if negb (writer_opens env output_path fps frame_size)
                then (Raise (WatermarkRemovalError msg_no_writer), w)
                else
                  (Ok {| j_template := template;
                         j_capture := capture;
                         j_writer := {| w_path := output_path; w_fps := fps;
                                        w_frame_size := frame_size; w_frames := [] |} |},
                   {| files := <[output_path := created]> (files w); dirs := dirs w |})
            end
        end
    end.

(** Lines 123-129. *)
Definition finalizing (env : Env) (writer : VideoWriter) (w : world) : outcome Path * world :=
  let w := release env writer w in
  let output_path := w_path writer in
  match files w !! output_path with
  | None => (Raise (WatermarkRemovalError msg_no_output), w)
  | Some f =>
      if (st_size f =? 0)%N then (Raise (WatermarkRemovalError msg_no_output), w)
      else (Ok output_path, w)
  end.

Definition process_video (env : Env) (w : world) (input_path output_dir : Path)
    (template_path : option Path) (threshold : Q) : outcome Path * world :=
  match opening env w input_path output_dir template_path with
  | (Raise e, w) => (Raise e, w)
  | (Ok j, w) =>
      match frame_loop env (j_template j) threshold w (j_writer j) None
              (frames (j_capture j)) with
      | (Raise e, w) => (Raise e, w)
      | (Ok writer, w) => finalizing env writer w
      end
  end.

(** ** The upload endpoint ([main.py], lines 30-58) *)

Inductive response : Type :=
| HTTPException (status_code : nat) (detail : string)
| FileResponse (path : Path) (filename : string)
| Unhandled (e : exn).

Definition allowed_suffixes : list string :=
  [".mp4"; ".mov"; ".mkv"; ".avi"; ".webm"]%string.

Definition UPLOAD_DIR (env : Env) : Path := joinpath (BASE_DIR env) "uploads".
Definition OUTPUT_DIR (env : Env) : Path := joinpath (BASE_DIR env) "outputs".

(** [filename] is empty when the request carries none; [content] is the
    uploaded file and [uuid] the fresh identifier drawn for it.  The result is
    the answer and the file system when the answer is handed over;
    [cleanup_files] runs after the answer was sent. *)
Definition process_upload (env : Env) (w : world) (filename : string) (content : file)
    (uuid : string) : response * world :=
  if String.eqb filename "" then (HTTPException 400 "No file uploaded", w)
  else
    let suffix := lower (suffix (Path_of filename)) in
    if negb (existsb (String.eqb suffix) allowed_suffixes)
    then (HTTPException 400 "Unsupported file type", w)
    else
      let upload_path := joinpath (UPLOAD_DIR env) (uuid +:+ suffix) in
      let w := {| files := <[upload_path := content]> (files w); dirs := dirs w |} in
      match process_video env w upload_path (OUTPUT_DIR env) None (35 # 100) with
      | (Raise (WatermarkRemovalError msg), w) => (HTTPException 422 msg, unlink upload_path w)
      | (Raise e, w) => (Unhandled e, w)
      | (Ok output_path, w) =>
          (FileResponse output_path (stem upload_path +:+ "_clean.mp4"), w)
      end.

(** ** A concrete environment, for the examples

    The correlation is computed on integers: with [n] pixels in the window,
    [n * sum(T*P) - sum(T) * sum(P)] over the integer square root of the
    product of the two variances (scaled alike), 0 when a variance is 0, and
    clipped to [-1, 1]. *)

Definition patch (image : gray) (x y : Z) (h w : nat) : gray :=
  map (fun row => take w (drop (Z.to_nat x) row)) (take h (drop (Z.to_nat y) image)).

Definition zsum (l : list Z) : Z := foldr Z.add 0%Z l.

Definition clip_ratio (num den : Z) : Q :=
  if (den <=? 0)%Z then 0
  else if (den <=? num)%Z then 1
  else if (num <=? - den)%Z then -1
  else Qmake num (Z.to_pos den).

Definition ccoeff_normed (image templ : gray) (x y : Z) : Q :=
  let '(h, w) := shape templ in
  let t := concat templ in
  let p := concat (patch image x y h w) in
  let n := Z.of_nat (length t) in
  let num := (n * zsum (zip_with Z.mul t p) - zsum t * zsum p)%Z in
  let dt := (n * zsum (zip_with Z.mul t t) - zsum t * zsum t)%Z in
  let dp := (n * zsum (zip_with Z.mul p p) - zsum p * zsum p)%Z in
  clip_ratio num (Z.sqrt (dt * dp)).

(** Gray conversion in OpenCV's 14-bit fixed point. *)
Definition luma (px : pixel) : Z :=
  let '(b, g, r) := px in
  ((b * 1868 + g * 9617 + r * 4899 + 8192) / 16384)%Z.

(** An inpainting that paints the masked pixels black. *)
Definition blacken (fr : frame) (mask : list (list Z)) : frame :=
  imap (fun r row => imap (fun c px =>
    if (get 0%Z mask r c =? 0)%Z then px else (0, 0, 0)%Z) row) fr.

(** The frame size of an mp4v stream: odd dimensions lose a pixel. *)
Definition even_size (frame_size : Z * Z) : Z * Z :=
  (2 * (fst frame_size / 2), 2 * (snd frame_size / 2))%Z.

Definition crop (frame_size : Z * Z) (fr : frame) : frame :=
  map (take (Z.to_nat (fst frame_size))) (take (Z.to_nat (snd frame_size)) fr).

(** A codec that needs a positive frame rate and frame size, writes a
    container of 258 bytes and 64 bytes per frame, and stores the frames
    cropped to even dimensions. *)
Definition demo_env : Env := {|
  BASE_DIR := ["/"; "srv"]%string;
  score := ccoeff_normed;
  bgr2gray := luma;
  inpaint := blacken;
  writer_opens := fun _ fps frame_size =>
    Qltb 0 fps && (0 <? fst frame_size)%Z && (0 <? snd frame_size)%Z;
  encoded_size := fun _ _ written => (258 + 64 * N.of_nat (length written))%N;
  decoded_size := even_size;
  decoded_frames := fun _ frame_size written => map (crop (even_size frame_size)) written
|}.

Definition gray_px (v : Z) : pixel := (v, v, v).

(** A 2 by 2 checker mark. *)
Definition checker : gray := [[0; 255]; [255; 0]]%Z.

(** A 4 by 5 frame of flat gray with the mark at column 1, row 1. *)
Definition marked_frame : frame :=
  map (map gray_px)
    [[90; 90; 90; 90; 90];
     [90; 0; 255; 90; 90];
     [90; 255; 0; 90; 90];
     [90; 90; 90; 90; 90]]%Z.

(** The same frame without the mark. *)
Definition plain_frame : frame :=
  map (map gray_px)
    [[90; 90; 90; 90; 90];
     [90; 90; 90; 90; 90];
     [90; 90; 90; 90; 90];
     [90; 90; 90; 90; 90]]%Z.

Definition image_file (g : gray) : file :=
  {| st_size := 1024; as_image := Some g; as_video := None |}.

Definition video_file (fps : Q) (fs : list frame) : file :=
  {| st_size := 4096; as_image := None;
     as_video := Some {| CAP_PROP_FPS := fps; CAP_PROP_FRAME_WIDTH := 5;
                         CAP_PROP_FRAME_HEIGHT := 4; frames := fs |} |}.

Definition demo_input : Path := ["/"; "srv"; "uploads"; "clip.mp4"]%string.
Definition demo_outputs : Path := ["/"; "srv"; "outputs"]%string.

Definition demo_world (fps : Q) (fs : list frame) : world :=
  {| files := <[demo_input := video_file fps fs]>
                (<[DEFAULT_TEMPLATE demo_env := image_file checker]> ∅);
     dirs := {[ ["/"]%string; ["/"; "srv"]%string; ["/"; "srv"; "uploads"]%string ]} |}.

(** A file name whose extension is spelt with U+212A KELVIN SIGN. *)
Definition kelvin_name : string :=
  "a.m" +:+ String (ascii_of_nat 226) (String (ascii_of_nat 132) (String (ascii_of_nat 170) "v")).

(** ** Vocabulary of the statements *)

(** The alignments of a template inside an image: the positions (x, y) of its
    top-left corner at which it fits. *)
Definition alignment (image templ : gray) (x y : Z) : Prop :=
  (0 <= x <= Z.of_nat (snd (shape image)) - Z.of_nat (snd (shape templ)))%Z /\
  (0 <= y <= Z.of_nat (fst (shape image)) - Z.of_nat (fst (shape templ)))%Z.

(** The pixels of a detection's bounding box, as (row, column). *)
Definition in_box (d : WatermarkDetection) (r c : nat) : Prop :=
  let '(x, y, w, h) := bbox d in
  (x <= Z.of_nat c < x + w)%Z /\ (y <= Z.of_nat r < y + h)%Z.

(** The same file with another frame rate in its container, and a world with
    one file replaced. *)
Definition retimed (fps : Q) (f : file) : file :=
  {| st_size := st_size f;
     as_image := as_image f;
     as_video := (fun v => {| CAP_PROP_FPS := fps;
                              CAP_PROP_FRAME_WIDTH := CAP_PROP_FRAME_WIDTH v;
                              CAP_PROP_FRAME_HEIGHT := CAP_PROP_FRAME_HEIGHT v;
                              frames := frames v |}) <$> as_video f |}.

Definition put_file (p : Path) (f : file) (w : world) : world :=
  {| files := <[p := f]> (files w); dirs := dirs w |}.

(** A second upload with the stem of the first and another extension, and a
    world that holds both. *)
Definition demo_input_mov : Path := ["/"; "srv"; "uploads"; "clip.mov"]%string.

Definition demo_world_two : world :=
  put_file demo_input_mov (video_file 24 [marked_frame; plain_frame])
    (demo_world 25 [marked_frame]).

(** The answers with which the endpoint turns an upload down. *)
Definition rejected (r : response) : bool :=
  match r with
  | HTTPException 400 _ => true
  | _ => false
  end.

(** A detection inside a 6 by 8 frame, and one that covers a 2 by 2 frame. *)
Definition inner_detection : WatermarkDetection :=
  {| top_left := (2, 1)%Z; size := (3, 2)%Z; confidence := 1 |}.

Definition full_detection : WatermarkDetection :=
  {| top_left := (0, 0)%Z; size := (2, 2)%Z; confidence := 1 |}.

(** [cleanup_files] of the endpoint ([main.py], lines 49-51): the background
    task that runs once the answer was sent, for the upload and the output of
    the request. *)
Definition cleanup_files (upload_path output_path : Path) (w : world) : world :=
  unlink output_path (unlink upload_path w).

(** Where the endpoint stores an upload. *)
Definition upload_path_of (env : Env) (filename uuid : string) : Path :=
  joinpath (UPLOAD_DIR env) (uuid +:+ lower (suffix (Path_of filename))).

(** A world in which the output directory's path is taken by a file. *)
Definition demo_world_blocked : world :=
  put_file demo_outputs (image_file checker) (demo_world 25 []).

(** Whether a string begins with the bytes of U+212A. *)
Definition kelvin_head (s : string) : bool :=
  match s with
  | String a (String b (String c _)) => is_kelvin a b c
  | _ => false
  end.

(** ** Proof steps used more than once *)

(** Case analysis on the detector's result in the goal. *)
Ltac case_detect :=
  match goal with
  | |- context [_detect_watermark ?env ?g ?t ?thr] =>
      let Hdet := fresh "Hdet" in
      destruct (_detect_watermark env g t thr) as [[?|]|?] eqn:Hdet; simpl
  end.

(** Two error messages of the driver differ. *)
Ltac other_message :=
  split; (let Heq := fresh in intros Heq; vm_compute in Heq; discriminate Heq).

(** ** Arrays *)

Lemma Qltb_lt (a b : Q) : Qltb a b = true <-> (a < b)%Q.
Proof.
  unfold Qltb. rewrite negb_true_iff, <- not_true_iff_false, Qle_bool_iff.
  split; [apply Qnot_le_lt | apply Qlt_not_le].
Qed.

Lemma Qltb_ge (a b : Q) : Qltb a b = false <-> (b <= a)%Q.
Proof. unfold Qltb. rewrite negb_false_iff. apply Qle_bool_iff. Qed.

Lemma tabulate_lookup {A} (H W : nat) (f : nat -> nat -> A) (r : nat) :
  (r < H)%nat -> tabulate H W f !! r = Some (map (f r) (seq 0 W)).
Proof.
  intros Hr. unfold tabulate.
  change (map (fun r0 => map (f r0) (seq 0 W)) (seq 0 H))
    with ((fun r0 => map (f r0) (seq 0 W)) <$> seq 0 H).
  rewrite list_lookup_fmap, lookup_seq_lt by done. reflexivity.
Qed.

Lemma tabulate_length {A} (H W : nat) (f : nat -> nat -> A) :
  length (tabulate H W f) = H.
Proof. unfold tabulate. rewrite length_map. apply length_seq. Qed.

Lemma tabulate_row_length {A} (H W : nat) (f : nat -> nat -> A) (row : list A) :
  row ∈ tabulate H W f -> length row = W.
Proof.
  unfold tabulate. rewrite list_elem_of_In, in_map_iff.
  intros (r & <- & _). rewrite length_map. apply length_seq.
Qed.

Lemma tabulate_shape {A} (H W : nat) (f : nat -> nat -> A) :
  (0 < H)%nat -> shape (tabulate H W f) = (H, W).
Proof.
  intros HH. unfold shape. rewrite tabulate_length. f_equal.
  destruct H as [|H]; [lia|]. unfold tabulate. simpl.
  rewrite length_map. apply length_seq.
Qed.

Lemma tabulate_get {A} (d : A) (H W : nat) (f : nat -> nat -> A) (r c : nat) :
  (r < H)%nat -> (c < W)%nat -> get d (tabulate H W f) r c = f r c.
Proof.
  intros Hr Hc. unfold get.
  rewrite (nth_lookup_Some _ _ _ _ (tabulate_lookup H W f r Hr)).
  apply nth_lookup_Some.
  change (map (f r) (seq 0 W)) with (f r <$> seq 0 W).
  rewrite list_lookup_fmap, lookup_seq_lt by done. reflexivity.
Qed.

(** ** Detector *)

Lemma entries_elem (m : list (list Q)) (v : Q) (x y : Z) :
  (v, (x, y)) ∈ entries m <->
  exists (r c : nat) (row : list Q),
    m !! r = Some row /\ row !! c = Some v /\ x = Z.of_nat c /\ y = Z.of_nat r.
Proof.
  unfold entries. rewrite list_elem_of_In, in_concat. split.
  - intros (l & Hl & Hv).
    apply list_elem_of_In, elem_of_lookup_imap in Hl as (r & row & -> & Hrow).
    apply list_elem_of_In, elem_of_lookup_imap in Hv as (c & v' & Heq & Hc).
    inversion Heq; subst. eauto 8.
  - intros (r & c & row & Hrow & Hc & -> & ->).
    exists (imap (fun c v => (v, (Z.of_nat c, Z.of_nat r))) row). split.
    + apply list_elem_of_In, elem_of_lookup_imap. eauto.
    + apply list_elem_of_In, elem_of_lookup_imap. eauto.
Qed.

Lemma fold_better_spec (l : list (Q * (Z * Z))) (b0 : option (Q * (Z * Z))) :
  match fold_left better l b0 with
  | None => l = [] /\ b0 = None
  | Some b =>
      (b ∈ l \/ b0 = Some b) /\
      (forall e, e ∈ l -> (fst e <= fst b)%Q) /\
      (forall e, b0 = Some e -> (fst e <= fst b)%Q)
  end.
Proof.
  revert b0. induction l as [|e l IH]; intros b0; simpl.
  - destruct b0 as [b|]; [|done].
    repeat split; [by right | by intros e He%elem_of_nil | ].
    intros e [= ->]. apply Qle_refl.
  - specialize (IH (better b0 e)).
    destruct (fold_left better l (better b0 e)) as [b|].
    + destruct IH as (Hin & Hmax & Hacc).
      assert (He : (fst e <= fst b)%Q).
      { destruct b0 as [b1|]; simpl in Hacc; [|by apply Hacc].
        destruct (Qltb (fst b1) (fst e)) eqn:Hlt; [by apply Hacc|].
        apply Qltb_ge in Hlt. eapply Qle_trans; [exact Hlt | by apply Hacc]. }
      repeat split.
      * destruct Hin as [Hin | Hin]; [left; by right|].
        destruct b0 as [b1|]; simpl in Hin.
        -- destruct (Qltb (fst b1) (fst e)); inversion Hin; subst; [left; by left | by right].
        -- inversion Hin; subst. left; by left.
      * intros e' [-> | He']%elem_of_cons; [done | by apply Hmax].
      * intros e' ->. simpl in Hacc.
        destruct (Qltb (fst e') (fst e)) eqn:Hlt; [|by apply Hacc].
        apply Qltb_lt, Qlt_le_weak in Hlt. eapply Qle_trans; [exact Hlt | exact He].
    + destruct IH as [_ Hb]. destruct b0 as [b1|]; simpl in Hb; [|done].
      by destruct (Qltb (fst b1) (fst e)).
Qed.

(** On a score table, [minMaxLoc] finds a cell that holds the maximum. *)
Lemma minMaxLoc_tabulate (H W : nat) (f : nat -> nat -> Q) :
  (0 < H)%nat -> (0 < W)%nat ->
  exists r c : nat,
    (r < H)%nat /\ (c < W)%nat /\
    minMaxLoc (tabulate H W f) = Some (f r c, (Z.of_nat c, Z.of_nat r)) /\
    forall r' c' : nat, (r' < H)%nat -> (c' < W)%nat -> (f r' c' <= f r c)%Q.
Proof.
  intros HH HW. unfold minMaxLoc.
  pose proof (fold_better_spec (entries (tabulate H W f)) None) as Hspec.
  assert (Hcell : forall r c : nat, (r < H)%nat -> (c < W)%nat ->
            (f r c, (Z.of_nat c, Z.of_nat r)) ∈ entries (tabulate H W f)).
  { intros r c Hr Hc. apply entries_elem. exists r, c, (map (f r) (seq 0 W)).
    split; [by apply tabulate_lookup|]. split; [|done].
    change (map (f r) (seq 0 W)) with (f r <$> seq 0 W).
    rewrite list_lookup_fmap, lookup_seq_lt by done. reflexivity. }
  destruct (fold_left better (entries (tabulate H W f)) None) as [[v [x y]]|].
  - destruct Hspec as ([Hin | [=]] & Hmax & _).
    apply entries_elem in Hin as (r & c & row & Hrow & Hc & -> & ->).
    assert (Hr : (r < H)%nat).
    { apply lookup_lt_Some in Hrow. by rewrite tabulate_length in Hrow. }
    rewrite tabulate_lookup in Hrow by done. inversion Hrow; subst row.
    change (map (f r) (seq 0 W)) with (f r <$> seq 0 W) in Hc.
    rewrite list_lookup_fmap in Hc.
    destruct (seq 0 W !! c) as [c0|] eqn:Hseq; [|done].
    apply lookup_seq in Hseq as [-> Hlt]. simpl in Hc. inversion Hc; subst v.
    exists r, c. repeat split; [done..|].
    intros r' c' Hr' Hc'. apply (Hmax _ (Hcell r' c' Hr' Hc')).
  - destruct Hspec as [Hnil _].
    pose proof (Hcell 0%nat 0%nat HH HW) as H0. rewrite Hnil in H0.
    by apply elem_of_nil in H0.
Qed.

Section Detector.

Variable env : Env.

Lemma detect_raises_only_cv2 (gray_frame template : gray) (threshold : Q) (e : exn) :
  _detect_watermark env gray_frame template threshold = Raise e -> e = Cv2Error.
Proof.
  unfold _detect_watermark, matchTemplate.
  destruct (shape gray_frame) as [H W], (shape template) as [h w].
  destruct ((H <? h)%nat || (W <? w)%nat);
    [destruct ((H <=? h)%nat && (W <=? w)%nat)|]; simpl; try congruence;
    (destruct (minMaxLoc _) as [[v loc]|]; [|congruence]);
    destruct (Qltb v threshold); congruence.
Qed.

(** A detection has the template's size and carries a correlation score that
    reached the threshold. *)
Lemma detect_some_score (image templ : gray) (threshold : Q) (d : WatermarkDetection) :
  _detect_watermark env image templ threshold = Ok (Some d) ->
  (threshold <= confidence d)%Q /\
  size d = (Z.of_nat (snd (shape templ)), Z.of_nat (fst (shape templ))) /\
  exists (i t : gray) (x y : Z), confidence d = score env i t x y.
Proof.
  unfold _detect_watermark, matchTemplate.
  destruct (shape image) as [H W], (shape templ) as [h w].
  destruct ((H <? h)%nat || (W <? w)%nat) eqn:Hsmall;
    [destruct ((H <=? h)%nat && (W <=? w)%nat) eqn:Hswap; [|done]|]; simpl.
  - apply andb_true_iff in Hswap as [Hh%Nat.leb_le Hw%Nat.leb_le].
    destruct (minMaxLoc_tabulate (h - H + 1) (w - W + 1)
                (fun r c => score env templ image (Z.of_nat c) (Z.of_nat r)))
      as (r & c & _ & _ & -> & _); [lia..|].
    destruct (Qltb _ threshold) eqn:Hlt; [done|].
    apply Qltb_ge in Hlt. intros [= <-]. simpl. split; [done|]. split; [done|]. eauto.
  - destruct (minMaxLoc_tabulate (H - h + 1) (W - w + 1)
                (fun r c => score env image templ (Z.of_nat c) (Z.of_nat r)))
      as (r & c & _ & _ & -> & _); [lia..|].
    destruct (Qltb _ threshold) eqn:Hlt; [done|].
    apply Qltb_ge in Hlt. intros [= <-]. simpl. split; [done|]. split; [done|]. eauto.
Qed.

(** What the detector returns when the template fits in the frame: the
    verdict on a best alignment. *)
Lemma detect_fits (image templ : gray) (threshold : Q) :
  (fst (shape templ) <= fst (shape image))%nat ->
  (snd (shape templ) <= snd (shape image))%nat ->
  exists x y : Z,
    alignment image templ x y /\
    (forall x' y' : Z, alignment image templ x' y' ->
       (score env image templ x' y' <= score env image templ x y)%Q) /\
    _detect_watermark env image templ threshold =
      Ok (if Qltb (score env image templ x y) threshold then None
          else Some {| top_left := (x, y);
                       size := (Z.of_nat (snd (shape templ)), Z.of_nat (fst (shape templ)));
                       confidence := score env image templ x y |}).
Proof.
  intros Hh Hw. unfold _detect_watermark, matchTemplate, alignment.
  destruct (shape image) as [H W] eqn:Hsi, (shape templ) as [h w] eqn:Hst.
  simpl in Hh, Hw |- *.
  assert (Hfit : (H <? h)%nat || (W <? w)%nat = false).
  { apply orb_false_iff. split; apply Nat.ltb_ge; lia. }
  rewrite Hfit. simpl.
  destruct (minMaxLoc_tabulate (H - h + 1) (W - w + 1)
              (fun r c => score env image templ (Z.of_nat c) (Z.of_nat r)))
    as (r & c & Hr & Hc & -> & Hmax); [lia..|].
  exists (Z.of_nat c), (Z.of_nat r). split; [lia|]. split.
  - intros x' y' [Hx' Hy'].
    specialize (Hmax (Z.to_nat y') (Z.to_nat x')).
    rewrite !Z2Nat.id in Hmax by lia. apply Hmax; lia.
  - simpl. by destruct (Qltb _ threshold).
Qed.

(** C4.  When the template fits in the frame, some alignment carries the
    maximum correlation score; the detector returns absent exactly when that
    maximum is strictly below the threshold, and otherwise returns that
    alignment as the position, the raw maximum as the confidence and the
    template's (width, height) as the size. *)
Theorem detect_watermark_maximum (image templ : gray) (threshold : Q) :
  (fst (shape templ) <= fst (shape image))%nat ->
  (snd (shape templ) <= snd (shape image))%nat ->
  exists x y : Z,
    alignment image templ x y /\
    (forall x' y' : Z, alignment image templ x' y' ->
       (score env image templ x' y' <= score env image templ x y)%Q) /\
    (_detect_watermark env image templ threshold = Ok None <->
       (score env image templ x y < threshold)%Q) /\
    (~ (score env image templ x y < threshold)%Q ->
       _detect_watermark env image templ threshold =
         Ok (Some {| top_left := (x, y);
                     size := (Z.of_nat (snd (shape templ)), Z.of_nat (fst (shape templ)));
                     confidence := score env image templ x y |})).
Proof.
  intros Hh Hw.
  destruct (detect_fits image templ threshold Hh Hw) as (x & y & Hal & Hmax & Hdet).
  exists x, y. split; [done|]. split; [done|]. rewrite Hdet.
  destruct (Qltb (score env image templ x y) threshold) eqn:Hlt.
  - apply Qltb_lt in Hlt. split; [done|]. intros Hn. by destruct Hn.
  - split; [|done]. split; [done|].
    intros Hlt'%Qltb_lt. congruence.
Qed.

Section BoundedScores.

(** The range of TM_CCOEFF_NORMED. *)
Hypothesis score_range :
  forall (i t : gray) (x y : Z), (-1 <= score env i t x y <= 1)%Q.

(** C7, as the code has it.  With correlation scores in [-1, 1], every
    detection carries a confidence between the threshold and 1; it lies in
    [0, 1] whenever the threshold is not negative. *)
Theorem detection_confidence_range (image templ : gray) (threshold : Q)
    (d : WatermarkDetection) :
  _detect_watermark env image templ threshold = Ok (Some d) ->
  (threshold <= confidence d)%Q /\ (-1 <= confidence d <= 1)%Q /\
  ((0 <= threshold)%Q -> (0 <= confidence d <= 1)%Q).
Proof.
  intros (Hthr & _ & i & t & x & y & Hscore)%detect_some_score.
  split; [done|]. rewrite Hscore in Hthr |- *. split; [apply score_range|].
  intros H0. split; [by eapply Qle_trans | apply score_range].
Qed.

End BoundedScores.

End Detector.

Lemma detect_watermark_maximum_witness :
  exists x y : Z,
    alignment (cvtColor demo_env marked_frame) checker x y /\
    (forall x' y' : Z, alignment (cvtColor demo_env marked_frame) checker x' y' ->
       (score demo_env (cvtColor demo_env marked_frame) checker x' y' <=
        score demo_env (cvtColor demo_env marked_frame) checker x y)%Q) /\
    (_detect_watermark demo_env (cvtColor demo_env marked_frame) checker (35 # 100) = Ok None <->
       (score demo_env (cvtColor demo_env marked_frame) checker x y < 35 # 100)%Q) /\
    (~ (score demo_env (cvtColor demo_env marked_frame) checker x y < 35 # 100)%Q ->
       _detect_watermark demo_env (cvtColor demo_env marked_frame) checker (35 # 100) =
         Ok (Some {| top_left := (x, y);
                     size := (Z.of_nat (snd (shape checker)), Z.of_nat (fst (shape checker)));
                     confidence := score demo_env (cvtColor demo_env marked_frame) checker x y |})).
Proof.
  apply (detect_watermark_maximum demo_env (cvtColor demo_env marked_frame) checker (35 # 100));
    vm_compute; lia.
Defined.

(** The stand-in correlation of the examples stays within [-1, 1]. *)
Lemma clip_ratio_range (num den : Z) : (-1 <= clip_ratio num den <= 1)%Q.
Proof.
  unfold clip_ratio.
  destruct (den <=? 0)%Z eqn:H0; [split; unfold Qle; simpl; lia|].
  destruct (den <=? num)%Z eqn:H1; [split; unfold Qle; simpl; lia|].
  destruct (num <=? - den)%Z eqn:H2; [split; unfold Qle; simpl; lia|].
  apply Z.leb_gt in H0, H1, H2.
  unfold Qle. simpl. rewrite !Z2Pos.id by lia. lia.
Qed.

Lemma ccoeff_normed_range (image templ : gray) (x y : Z) :
  (-1 <= ccoeff_normed image templ x y <= 1)%Q.
Proof.
  unfold ccoeff_normed. destruct (shape templ) as [h w]. apply clip_ratio_range.
Qed.

Lemma detection_confidence_range_witness :
  (forall (i t : gray) (x y : Z), (-1 <= score demo_env i t x y <= 1)%Q) /\
  _detect_watermark demo_env (cvtColor demo_env marked_frame) checker (35 # 100) =
    Ok (Some {| top_left := (1, 1)%Z; size := (2, 2)%Z; confidence := 1 |}) /\
  ((35 # 100 <= 1)%Q /\ (-1 <= 1 <= 1)%Q /\ ((0 <= 35 # 100)%Q -> (0 <= 1 <= 1)%Q)).
Proof.
  split; [exact ccoeff_normed_range|]. split; [vm_compute; reflexivity|].
  apply (detection_confidence_range demo_env ccoeff_normed_range
           (cvtColor demo_env marked_frame) checker (35 # 100)
           {| top_left := (1, 1)%Z; size := (2, 2)%Z; confidence := 1 |}).
  vm_compute; reflexivity.
Defined.

(** C7, as stated, fails: with a negative threshold the detector returns the
    inverted mark found in a frame with confidence -1. *)
Lemma detection_confidence_negative :
  exists d : WatermarkDetection,
    _detect_watermark demo_env [[0; 255]]%Z [[255; 0]]%Z (-1) = Ok (Some d) /\
    ~ (0 <= confidence d <= 1)%Q.
Proof.
  exists {| top_left := (0, 0)%Z; size := (2, 1)%Z; confidence := -1 |}.
  split; [vm_compute; reflexivity|].
  simpl. intros [H _]. by vm_compute in H.
Qed.

(** ** Mask builder *)

Lemma foldr_max_ge (l : list Z) (v : Z) : v ∈ l -> (v <= foldr Z.max 0 l)%Z.
Proof.
  induction l as [|a l IH]; [by intros ?%elem_of_nil|].
  intros [-> | Hin]%elem_of_cons; simpl; [lia|]. specialize (IH Hin). lia.
Qed.

Lemma foldr_max_elem (l : list Z) : foldr Z.max 0%Z l = 0%Z \/ foldr Z.max 0%Z l ∈ l.
Proof.
  induction l as [|a l IH]; [by left|]. simpl.
  destruct (Z.max_spec a (foldr Z.max 0%Z l)) as [[_ ->] | [_ ->]].
  - destruct IH as [IH | IH]; [by left | right; by right].
  - right; by left.
Qed.

Lemma zeros_get (H W r c : nat) : get 0%Z (tabulate H W (fun _ _ => 0%Z)) r c = 0%Z.
Proof.
  destruct (decide (r < H)%nat) as [Hr|Hr], (decide (c < W)%nat) as [Hc|Hc];
    [by apply tabulate_get|..]; unfold get.
  - rewrite (nth_lookup_Some _ _ _ _ (tabulate_lookup H W _ r Hr)).
    apply nth_overflow. rewrite length_map, length_seq. lia.
  - rewrite (nth_overflow (tabulate _ _ _)) by (rewrite tabulate_length; lia).
    by destruct c.
  - rewrite (nth_overflow (tabulate _ _ _)) by (rewrite tabulate_length; lia).
    by destruct c.
Qed.

(** The mask before dilation: 255 on the slice, 0 elsewhere. *)
Lemma block_get (H W : nat) (y0 y1 x0 x1 : Z) (r c : nat) :
  (r < H)%nat -> (c < W)%nat ->
  get 0%Z (set_block (tabulate H W (fun _ _ => 0%Z)) y0 y1 x0 x1 255) r c =
    if in_slice H y0 y1 r && in_slice W x0 x1 c then 255%Z else 0%Z.
Proof.
  intros Hr Hc. unfold set_block. rewrite tabulate_shape by lia.
  rewrite tabulate_get by done. by rewrite zeros_get.
Qed.

Lemma block_shape (H W : nat) (y0 y1 x0 x1 : Z) :
  (0 < H)%nat -> shape (set_block (tabulate H W (fun _ _ => 0%Z)) y0 y1 x0 x1 255) = (H, W).
Proof.
  intros HH. unfold set_block. rewrite tabulate_shape by done. by apply tabulate_shape.
Qed.

Lemma dilate_get (m : list (list Z)) (k H W r c : nat) :
  shape m = (H, W) -> (r < H)%nat -> (c < W)%nat ->
  get 0%Z (dilate m k) r c =
    foldr Z.max 0%Z
      (dr ← kernel_offsets k; dc ← kernel_offsets k;
       [get_border m (Z.of_nat r + dr) (Z.of_nat c + dc)]).
Proof. intros Hs Hr Hc. unfold dilate. rewrite Hs. by rewrite tabulate_get. Qed.

Lemma window_elem (m : list (list Z)) (k : nat) (r c v : Z) :
  v ∈ (dr ← kernel_offsets k; dc ← kernel_offsets k; [get_border m (r + dr) (c + dc)]) <->
  exists dr dc : Z,
    dr ∈ kernel_offsets k /\ dc ∈ kernel_offsets k /\ v = get_border m (r + dr)%Z (c + dc)%Z.
Proof.
  rewrite list_elem_of_bind. split.
  - intros (dr & (dc & Hv%list_elem_of_singleton & Hdc)%list_elem_of_bind & Hdr). eauto.
  - intros (dr & dc & Hdr & Hdc & ->). exists dr. split; [|done].
    apply list_elem_of_bind. exists dc. split; [by apply list_elem_of_singleton | done].
Qed.

Lemma block_border_binary (H W : nat) (y0 y1 x0 x1 r c : Z) :
  get_border (set_block (tabulate H W (fun _ _ => 0%Z)) y0 y1 x0 x1 255) r c = 0%Z \/
  get_border (set_block (tabulate H W (fun _ _ => 0%Z)) y0 y1 x0 x1 255) r c = 255%Z.
Proof.
  unfold get_border.
  destruct (shape _) as [H' W'] eqn:Hs.
  destruct (_ && _) eqn:Hin; [|by left].
  destruct H as [|H].
  { unfold set_block, shape in Hs. simpl in Hs. inversion Hs; subst.
    apply andb_true_iff in Hin as [[[Hlo%Z.leb_le Hin%Z.ltb_lt]%andb_true_iff _]%andb_true_iff _].
    simpl in Hin. lia. }
  rewrite block_shape in Hs by lia. inversion Hs; subst H' W'.
  apply andb_true_iff in Hin as [[[Hr0%Z.leb_le Hr1%Z.ltb_lt]%andb_true_iff
    Hc0%Z.leb_le]%andb_true_iff Hc1%Z.ltb_lt].
  rewrite block_get by lia. destruct (_ && _); [by right | by left].
Qed.

(** A pixel is filled by the dilation as soon as the window around it meets a
    filled pixel of the block. *)
Lemma dilate_block_fill (H W : nat) (y0 y1 x0 x1 : Z) (r c : nat) (dr dc : Z) :
  (r < H)%nat -> (c < W)%nat ->
  dr ∈ kernel_offsets 5 -> dc ∈ kernel_offsets 5 ->
  (0 <= Z.of_nat r + dr < Z.of_nat H)%Z -> (0 <= Z.of_nat c + dc < Z.of_nat W)%Z ->
  in_slice H y0 y1 (Z.to_nat (Z.of_nat r + dr)) = true ->
  in_slice W x0 x1 (Z.to_nat (Z.of_nat c + dc)) = true ->
  get 0%Z (dilate (set_block (tabulate H W (fun _ _ => 0%Z)) y0 y1 x0 x1 255) 5) r c = 255%Z.
Proof.
  intros Hr Hc Hdr Hdc Hrr Hcc Hy Hx.
  rewrite (dilate_get _ 5 H W) by (try apply block_shape; lia).
  set (l := mbind _ _).
  assert (Hin : 255%Z ∈ l).
  { apply window_elem. exists dr, dc. split; [done|]. split; [done|].
    unfold get_border. rewrite block_shape by lia.
    replace (_ && _ && _ && _) with true by (symmetry; rewrite !andb_true_iff; lia).
    rewrite block_get by lia. by rewrite Hy, Hx. }
  apply foldr_max_ge in Hin.
  destruct (foldr_max_elem l) as [H0 | Hel]; [lia|].
  apply window_elem in Hel as (dr' & dc' & _ & _ & Hv).
  destruct (block_border_binary H W y0 y1 x0 x1 (Z.of_nat r + dr') (Z.of_nat c + dc'));
    lia.
Qed.

Lemma in_slice_box (n : nat) (x w : Z) (i : nat) :
  (0 <= x)%Z -> (i < n)%nat -> (x <= Z.of_nat i < x + w)%Z -> in_slice n x (x + w) i = true.
Proof.
  intros Hx Hi Hb. unfold in_slice, slice_bound.
  destruct (x <? 0)%Z eqn:H1; [apply Z.ltb_lt in H1; lia|].
  destruct (x + w <? 0)%Z eqn:H2; [apply Z.ltb_lt in H2; lia|].
  apply andb_true_iff. split; [apply Z.leb_le | apply Z.ltb_lt]; lia.
Qed.

Lemma kernel_offsets_5 : kernel_offsets 5 = [-2; -1; 0; 1; 2]%Z.
Proof. reflexivity. Qed.

Lemma build_mask_unfold (H W : nat) (x y w h : Z) (conf : Q) :
  _build_inpaint_mask (H, W) {| top_left := (x, y); size := (w, h); confidence := conf |} =
  dilate (set_block (tabulate H W (fun _ _ => 0%Z)) y (y + h) x (x + w) 255) 5.
Proof. reflexivity. Qed.

(** C5, as the code has it.  For a detection with non-negative coordinates
    the mask has the frame's dimensions, holds only 0 and 255, is 255 on
    every frame pixel of the bounding box, and, when the box meets the frame
    without covering all of it, is 255 on some pixel outside the box. *)
Theorem build_inpaint_mask_covers (H W : nat) (d : WatermarkDetection) :
  (0 <= fst (top_left d))%Z -> (0 <= snd (top_left d))%Z ->
  let mask := _build_inpaint_mask (H, W) d in
  length mask = H /\
  (forall row, row ∈ mask -> length row = W) /\
  (forall r c : nat, (r < H)%nat -> (c < W)%nat ->
     get 0%Z mask r c = 0%Z \/ get 0%Z mask r c = 255%Z) /\
  (forall r c : nat, (r < H)%nat -> (c < W)%nat -> in_box d r c ->
     get 0%Z mask r c = 255%Z) /\
  ((fst (top_left d) < Z.of_nat W)%Z -> (snd (top_left d) < Z.of_nat H)%Z ->
   (0 < fst (size d))%Z -> (0 < snd (size d))%Z ->
   (0 < fst (top_left d) \/ 0 < snd (top_left d) \/
    fst (top_left d) + fst (size d) < Z.of_nat W \/
    snd (top_left d) + snd (size d) < Z.of_nat H)%Z ->
   exists r c : nat, (r < H)%nat /\ (c < W)%nat /\ ~ in_box d r c /\
     get 0%Z mask r c = 255%Z).
Proof.
  destruct d as [[x y] [w h] conf]. simpl. intros Hx Hy.
  rewrite build_mask_unfold.
  set (block := set_block (tabulate H W (fun _ _ => 0%Z)) y (y + h) x (x + w) 255).
  assert (Hdil : (0 < H)%nat -> dilate block 5 =
            tabulate H W (fun r c => foldr Z.max 0%Z
              (dr ← kernel_offsets 5; dc ← kernel_offsets 5;
               [get_border block (Z.of_nat r + dr) (Z.of_nat c + dc)]))).
  { intros HH. unfold dilate. subst block. by rewrite block_shape. }
  split; [|split; [|split; [|split]]].
  - destruct H as [|H]; [reflexivity|]. rewrite Hdil by lia. apply tabulate_length.
  - destruct H as [|H]; [by intros row ?%elem_of_nil|]. rewrite Hdil by lia.
    apply tabulate_row_length.
  - intros r c Hr Hc. subst block.
    rewrite (dilate_get _ 5 H W) by (try apply block_shape; lia).
    set (l := mbind _ _). destruct (foldr_max_elem l) as [H0 | Hel]; [by left|].
    apply window_elem in Hel as (dr & dc & _ & _ & ->). apply block_border_binary.
  - intros r c Hr Hc [Hbx Hby]. subst block.
    apply (dilate_block_fill H W _ _ _ _ r c 0 0); rewrite ?kernel_offsets_5, ?Z.add_0_r,
      ?Nat2Z.id; try lia; try (by repeat constructor); by apply in_slice_box.
  - intros HxW HyH Hw Hh Hroom. subst block.
    destruct (decide (0 < x)%Z) as [Hleft|Hleft];
      [|destruct (decide (0 < y)%Z) as [Htop|Htop];
        [|destruct (decide (x + w < Z.of_nat W)%Z) as [Hright|Hright]]].
    + exists (Z.to_nat y), (Z.to_nat (x - 1)).
      split; [lia|]. split; [lia|]. split; [unfold in_box; simpl; lia|].
      apply (dilate_block_fill H W _ _ _ _ _ _ 0 1); rewrite ?kernel_offsets_5;
        try lia; try (by repeat constructor); apply in_slice_box; lia.
    + exists (Z.to_nat (y - 1)), (Z.to_nat x).
      split; [lia|]. split; [lia|]. split; [unfold in_box; simpl; lia|].
      apply (dilate_block_fill H W _ _ _ _ _ _ 1 0); rewrite ?kernel_offsets_5;
        try lia; try (by repeat constructor); apply in_slice_box; lia.
    + exists (Z.to_nat y), (Z.to_nat (x + w)).
      split; [lia|]. split; [lia|]. split; [unfold in_box; simpl; lia|].
      apply (dilate_block_fill H W _ _ _ _ _ _ 0 (-1)); rewrite ?kernel_offsets_5;
        try lia; try (by repeat constructor); apply in_slice_box; lia.
    + exists (Z.to_nat (y + h)), (Z.to_nat x).
      split; [lia|]. split; [lia|]. split; [unfold in_box; simpl; lia|].
      apply (dilate_block_fill H W _ _ _ _ _ _ (-1) 0); rewrite ?kernel_offsets_5;
        try lia; try (by repeat constructor); apply in_slice_box; lia.
Qed.

Lemma build_inpaint_mask_covers_witness :
  (0 <= fst (top_left inner_detection))%Z /\ (0 <= snd (top_left inner_detection))%Z /\
  (forall r c : nat, (r < 6)%nat -> (c < 8)%nat -> in_box inner_detection r c ->
     get 0%Z (_build_inpaint_mask (6, 8)%nat inner_detection) r c = 255%Z) /\
  (exists r c : nat, (r < 6)%nat /\ (c < 8)%nat /\ ~ in_box inner_detection r c /\
     get 0%Z (_build_inpaint_mask (6, 8)%nat inner_detection) r c = 255%Z).
Proof.
  assert (Hx : (0 <= fst (top_left inner_detection))%Z) by (simpl; lia).
  assert (Hy : (0 <= snd (top_left inner_detection))%Z) by (simpl; lia).
  destruct (build_inpaint_mask_covers 6 8 inner_detection Hx Hy)
    as (_ & _ & _ & Hbox & Hstrict).
  split; [exact Hx|]. split; [exact Hy|]. split; [exact Hbox|].
  apply Hstrict; simpl; lia.
Defined.

(** C5, as stated, fails.  A 2 by 2 frame that is the mark itself is detected
    at (0, 0) with the frame's own size; the mask is 255 nowhere outside the
    bounding box, so the filled region is not a strict superset of it. *)
Lemma build_inpaint_mask_not_strict :
  _detect_watermark demo_env checker checker (35 # 100) = Ok (Some full_detection) /\
  ~ exists r c : nat, ~ in_box full_detection r c /\
      get 0%Z (_build_inpaint_mask (shape checker) full_detection) r c = 255%Z.
Proof.
  split; [vm_compute; reflexivity|].
  intros (r & c & Hout & Hfill). apply Hout. unfold in_box. simpl.
  destruct r as [|[|r]], c as [|[|c]]; vm_compute in Hfill; try lia;
    repeat match type of Hfill with
           | context [match ?n with _ => _ end] => destruct n
           end; discriminate.
Qed.

(** ** Tracker and frame loop *)

Lemma tracker_update_le (d : WatermarkDetection) (updated : option WatermarkDetection) :
  (confidence d <= confidence (tracker_update d updated))%Q.
Proof.
  destruct updated as [u|]; simpl; [|apply Qle_refl].
  destruct (Qle_bool (confidence d) (confidence u)) eqn:Hle; [|apply Qle_refl].
  by apply Qle_bool_iff.
Qed.

Section FrameLoop.

Variable env : Env.
Variable template : gray.
Variable threshold : Q.

(** The loop on a frame that comes after a detection was established. *)
Lemma frame_loop_tracked (w : world) (writer : VideoWriter) (current : WatermarkDetection)
    (fr : frame) (capture : list frame) :
  frame_loop env template threshold w writer (Some current) (fr :: capture) =
  match _detect_watermark env (cvtColor env fr) template threshold with
  | Raise e => (Raise e, w)
  | Ok updated =>
      let d := tracker_update current updated in
      frame_loop env template threshold w
        (write writer (inpaint env fr (_build_inpaint_mask (shape (cvtColor env fr)) d)))
        (Some d) capture
  end.
Proof. simpl. by destruct (_detect_watermark _ _ _ _). Qed.

(** C2.  Once a detection is held, every later frame leaves the loop holding
    a detection again (the result of [tracker_update]); a candidate with
    confidence at least the held one replaces it, an absent or weaker one
    leaves it unchanged; and along any sequence of candidates the held
    confidence never decreases. *)
Theorem tracker_held_and_monotone :
  (forall w writer current fr capture updated,
     _detect_watermark env (cvtColor env fr) template threshold = Ok updated ->
     frame_loop env template threshold w writer (Some current) (fr :: capture) =
     frame_loop env template threshold w
       (write writer (inpaint env fr
          (_build_inpaint_mask (shape (cvtColor env fr)) (tracker_update current updated))))
       (Some (tracker_update current updated)) capture) /\
  (forall d u : WatermarkDetection,
     (confidence d <= confidence u)%Q -> tracker_update d (Some u) = u) /\
  (forall d u : WatermarkDetection,
     (confidence u < confidence d)%Q -> tracker_update d (Some u) = d) /\
  (forall d : WatermarkDetection, tracker_update d None = d) /\
  (forall (d : WatermarkDetection) (candidates : list (option WatermarkDetection)) (n : nat),
     (confidence (fold_left tracker_update (take n candidates) d) <=
      confidence (fold_left tracker_update (take (S n) candidates) d))%Q).
Proof.
  split; [|split; [|split; [|split]]].
  - intros w writer current fr capture updated Hdet.
    rewrite frame_loop_tracked, Hdet. reflexivity.
  - intros d u Hle. simpl. apply Qle_bool_iff in Hle. by rewrite Hle.
  - intros d u Hlt. simpl.
    destruct (Qle_bool (confidence d) (confidence u)) eqn:Hle; [|done].
    apply Qle_bool_iff in Hle. by apply Qlt_not_le in Hlt.
  - done.
  - intros d candidates n. revert d candidates.
    induction n as [|n IH]; intros d [|c candidates]; simpl; try apply Qle_refl.
    + apply tracker_update_le.
    + apply IH.
Qed.

(** After a detection is held, the loop can only stop on an OpenCV error, and
    it leaves the file system alone. *)
Lemma frame_loop_established (w w' : world) (writer : VideoWriter) (d : WatermarkDetection)
    (capture : list frame) (e : exn) :
  frame_loop env template threshold w writer (Some d) capture = (Raise e, w') ->
  e = Cv2Error /\ w' = w.
Proof.
  revert writer d. induction capture as [|fr capture IH]; intros writer d; [done|].
  rewrite frame_loop_tracked.
  destruct (_detect_watermark env (cvtColor env fr) template threshold) as [updated|e'] eqn:Hdet.
  - apply IH.
  - intros [= -> ->]. split; [|done]. by eapply detect_raises_only_cv2.
Qed.

(** A loop that runs to the end leaves the file system alone, gives the same
    writer whatever the file system, and wrote one frame per frame read. *)
Lemma frame_loop_ok (w w' : world) (writer writer' : VideoWriter)
    (detection : option WatermarkDetection) (capture : list frame) :
  frame_loop env template threshold w writer detection capture = (Ok writer', w') ->
  w' = w /\
  w_path writer' = w_path writer /\ w_fps writer' = w_fps writer /\
  w_frame_size writer' = w_frame_size writer /\
  length (w_frames writer') = (length (w_frames writer) + length capture)%nat /\
  forall w0, frame_loop env template threshold w0 writer detection capture = (Ok writer', w0).
Proof.
  revert writer detection.
  induction capture as [|fr capture IH]; intros writer detection; simpl.
  - intros [= -> ->]. repeat split; lia.
  - destruct detection as [current|]; case_detect; try done.
    all: intros Hloop; apply IH in Hloop as (-> & Hp & Hf & Hs & Hlen & Hany); simpl in *;
      rewrite length_app in Hlen; simpl in Hlen; repeat split; try done; lia.
Qed.

(** A loop that starts without a detection stops either on an OpenCV error or
    because its first frame yields none; in the latter case the writer's file
    is removed. *)
Lemma frame_loop_first (w w' : world) (writer : VideoWriter) (capture : list frame)
    (e : exn) :
  frame_loop env template threshold w writer None capture = (Raise e, w') ->
  (e = Cv2Error /\ w' = w) \/
  (e = WatermarkRemovalError msg_not_found /\
   w' = unlink (w_path writer) (release env writer w) /\
   exists fr rest, capture = fr :: rest /\
     _detect_watermark env (cvtColor env fr) template threshold = Ok None).
Proof.
  destruct capture as [|fr capture]; [done|]. simpl. case_detect.
  - intros Hloop%frame_loop_established. by left.
  - intros [= <- <-]. right. eauto 6.
  - intros [= <- <-]. left. split; [|done]. by eapply detect_raises_only_cv2.
Qed.

(** The outcome of the loop does not depend on the file system. *)
Lemma frame_loop_fst (w w0 : world) (writer : VideoWriter)
    (detection : option WatermarkDetection) (capture : list frame) :
  fst (frame_loop env template threshold w writer detection capture) =
  fst (frame_loop env template threshold w0 writer detection capture).
Proof.
  revert writer detection.
  induction capture as [|fr capture IH]; intros writer detection; [done|]. simpl.
  destruct detection as [current|]; case_detect; try done; apply IH.
Qed.

End FrameLoop.

(** ** Pipeline driver *)

Lemma load_template_raise (w : world) (template_path : Path) (e : exn) :
  _load_template w template_path = Raise e ->
  e <> WatermarkRemovalError msg_not_found /\ e <> WatermarkRemovalError msg_no_output.
Proof.
  unfold _load_template. destruct (negb _); [intros [= <-]; other_message|].
  destruct (_ ≫= _); [done|]. intros [= <-]; other_message.
Qed.

Lemma mkdir_ok (p : Path) (w w' : world) :
  mkdir p w = Ok w' ->
  files w' = files w /\ dirs w' = dirs w ∪ list_to_set (prefixes p).
Proof. unfold mkdir. destruct (existsb _ _); [done|]. by intros [= <-]. Qed.

Section Driver.

Variable env : Env.

(** What a successful opening did. *)
Lemma opening_ok (w w1 : world) (input_path output_dir : Path)
    (template_path : option Path) (j : job) :
  opening env w input_path output_dir template_path = (Ok j, w1) ->
  path_exists w input_path = true /\
  _load_template w (default (DEFAULT_TEMPLATE env) template_path) = Ok (j_template j) /\
  files w !! input_path ≫= as_video = Some (j_capture j) /\
  j_writer j = {| w_path := output_path_of input_path output_dir;
                  w_fps := fps_or_default (CAP_PROP_FPS (j_capture j));
                  w_frame_size := (CAP_PROP_FRAME_WIDTH (j_capture j),
                                   CAP_PROP_FRAME_HEIGHT (j_capture j));
                  w_frames := [] |} /\
  writer_opens env (w_path (j_writer j)) (w_fps (j_writer j)) (w_frame_size (j_writer j)) = true /\
  files w1 = <[output_path_of input_path output_dir := created]> (files w) /\
  dirs w1 = dirs w ∪ list_to_set (prefixes output_dir).
Proof.
  unfold opening. destruct (path_exists w input_path); simpl; [|done].
  destruct (_load_template _ _) as [template|]; [|done].
  destruct (_ ≫= _) as [capture|]; [|done].
  destruct (mkdir output_dir w) as [wm|] eqn:Hmk; [|done].
  apply mkdir_ok in Hmk as [Hfiles Hdirs].
  destruct (writer_opens _ _ _ _) eqn:Hopen; simpl; [|done].
  intros [= <- <-]. simpl. by rewrite Hfiles, Hdirs.
Qed.

Lemma opening_raise (w w1 : world) (input_path output_dir : Path)
    (template_path : option Path) (e : exn) :
  opening env w input_path output_dir template_path = (Raise e, w1) ->
  e <> WatermarkRemovalError msg_not_found /\ e <> WatermarkRemovalError msg_no_output.
Proof.
  unfold opening. destruct (path_exists w input_path); simpl; [|intros [= <- _]; other_message].
  destruct (_load_template _ _) as [template|e'] eqn:Hload.
  2:{ intros [= <- _]. by eapply load_template_raise. }
  destruct (_ ≫= _) as [capture|]; [|intros [= <- _]; other_message].
  unfold mkdir. destruct (existsb _ _); [intros [= <- _]; other_message|].
  destruct (writer_opens _ _ _ _); simpl; [done | intros [= <- _]; other_message].
Qed.

Lemma finalizing_raise (writer : VideoWriter) (w w' : world) (e : exn) :
  finalizing env writer w = (Raise e, w') ->
  e = WatermarkRemovalError msg_no_output /\ w' = release env writer w.
Proof.
  unfold finalizing. destruct (_ !! _) as [f|]; [|by intros [= <- <-]].
  destruct (st_size f =? 0)%N; [by intros [= <- <-] | done].
Qed.

Lemma finalizing_ok (writer : VideoWriter) (w w' : world) (p : Path) :
  finalizing env writer w = (Ok p, w') ->
  p = w_path writer /\ w' = release env writer w /\
  files w' !! p = Some (encoded env writer) /\ st_size (encoded env writer) <> 0%N.
Proof.
  unfold finalizing. simpl. rewrite lookup_insert_eq.
  destruct (st_size (encoded env writer) =? 0)%N eqn:Hsz; [done|].
  intros [= <- <-]. simpl. rewrite lookup_insert_eq. by apply N.eqb_neq in Hsz.
Qed.

(** What a successful job did. *)
Lemma process_video_ok (w w' : world) (input_path output_dir : Path)
    (template_path : option Path) (threshold : Q) (p : Path) :
  process_video env w input_path output_dir template_path threshold = (Ok p, w') ->
  exists (j : job) (w1 : world) (writer : VideoWriter),
    opening env w input_path output_dir template_path = (Ok j, w1) /\
    (forall w0, frame_loop env (j_template j) threshold w0 (j_writer j) None
                  (frames (j_capture j)) = (Ok writer, w0)) /\
    p = output_path_of input_path output_dir /\
    w_path writer = p /\ w_fps writer = w_fps (j_writer j) /\
    w_frame_size writer = w_frame_size (j_writer j) /\
    length (w_frames writer) = length (frames (j_capture j)) /\
    w' = release env writer w1 /\
    files w' !! p = Some (encoded env writer) /\
    st_size (encoded env writer) <> 0%N.
Proof.
  unfold process_video.
  destruct (opening _ _ _ _ _) as [[j|e] w1] eqn:Hopen; [|done].
  destruct (frame_loop _ _ _ _ _ _ _) as [[writer|e] w2] eqn:Hloop; [|done].
  apply frame_loop_ok in Hloop as (-> & Hp & Hf & Hs & Hlen & Hany).
  intros (-> & -> & Hfile & Hsz)%finalizing_ok.
  apply opening_ok in Hopen as Hj. destruct Hj as (_ & _ & _ & Hw & _).
  rewrite Hw in Hp, Hlen. simpl in Hp, Hlen.
  exists j, w1, writer. by rewrite Hp in *.
Qed.

(** C3.  The job ends with the not-found error exactly when it gets past the
    opening and the detector returns absent on the first frame read; once a
    detection is held the loop never raises a removal error, and a frame on
    which the detector returns absent is cleaned at the held position. *)
Theorem watermark_not_found_first_frame_only (w : world)
    (input_path output_dir : Path) (template_path : option Path) (threshold : Q) :
  ((exists w', process_video env w input_path output_dir template_path threshold =
       (Raise (WatermarkRemovalError msg_not_found), w')) <->
   (exists j w1 fr rest,
       opening env w input_path output_dir template_path = (Ok j, w1) /\
       frames (j_capture j) = fr :: rest /\
       _detect_watermark env (cvtColor env fr) (j_template j) threshold = Ok None)) /\
  (forall template w0 w' writer d capture e,
     frame_loop env template threshold w0 writer (Some d) capture = (Raise e, w') ->
     e = Cv2Error) /\
  (forall template w0 writer d fr capture,
     _detect_watermark env (cvtColor env fr) template threshold = Ok None ->
     frame_loop env template threshold w0 writer (Some d) (fr :: capture) =
     frame_loop env template threshold w0
       (write writer (inpaint env fr (_build_inpaint_mask (shape (cvtColor env fr)) d)))
       (Some d) capture).
Proof.
  split; [split|split].
  - intros [w' Hrun]. unfold process_video in Hrun.
    destruct (opening _ _ _ _ _) as [[j|e] w1] eqn:Hopen.
    2:{ inversion Hrun; subst. by apply opening_raise in Hopen as [? _]. }
    destruct (frame_loop _ _ _ _ _ _ _) as [[writer|e] w2] eqn:Hloop.
    { by apply finalizing_raise in Hrun as [[=] _]. }
    inversion Hrun; subst.
    apply frame_loop_first in Hloop as [[[=] _] | (_ & _ & fr & rest & Hfr & Hdet)].
    eauto 8.
  - intros (j & w1 & fr & rest & Hopen & Hfr & Hdet).
    unfold process_video. rewrite Hopen, Hfr. simpl. rewrite Hdet. eauto.
  - intros template w0 w' writer d capture e Hloop.
    by apply frame_loop_established in Hloop as [-> _].
  - intros template w0 writer d fr capture Hdet.
    rewrite frame_loop_tracked, Hdet. reflexivity.
Qed.

(** The first-frame failure removes the output file. *)
Lemma not_found_removes_output (w w' : world) (input_path output_dir : Path)
    (template_path : option Path) (threshold : Q) :
  process_video env w input_path output_dir template_path threshold =
    (Raise (WatermarkRemovalError msg_not_found), w') ->
  files w' !! output_path_of input_path output_dir = None.
Proof.
  unfold process_video.
  destruct (opening _ _ _ _ _) as [[j|e] w1] eqn:Hopen.
  2:{ intros [= -> _]. by apply opening_raise in Hopen as [? _]. }
  destruct (frame_loop _ _ _ _ _ _ _) as [[writer|e] w2] eqn:Hloop.
  { by intros [[=] _]%finalizing_raise. }
  intros [= -> ->].
  apply frame_loop_first in Hloop as [[[=] _] | (_ & -> & _)].
  apply opening_ok in Hopen as (_ & _ & _ & -> & _). simpl. apply lookup_delete_eq.
Qed.

(** The failure after the pass does not: the file the writer released stays. *)
Lemma no_output_keeps_file (w w' : world) (input_path output_dir : Path)
    (template_path : option Path) (threshold : Q) :
  process_video env w input_path output_dir template_path threshold =
    (Raise (WatermarkRemovalError msg_no_output), w') ->
  is_Some (files w' !! output_path_of input_path output_dir).
Proof.
  unfold process_video.
  destruct (opening _ _ _ _ _) as [[j|e] w1] eqn:Hopen.
  2:{ intros [= -> _]. by apply opening_raise in Hopen as [_ ?]. }
  destruct (frame_loop _ _ _ _ _ _ _) as [[writer|e] w2] eqn:Hloop.
  - intros [_ ->]%finalizing_raise.
    apply frame_loop_ok in Hloop as (_ & Hp & _).
    apply opening_ok in Hopen as (_ & _ & _ & Hw & _). rewrite Hw in Hp. simpl in Hp.
    simpl. rewrite Hp, lookup_insert_eq. eauto.
  - intros [= -> ->]. by apply frame_loop_first in Hloop as [[[=] _] | ([=] & _)].
Qed.

(** The ways in which the opening fails. *)
Lemma opening_raise_cases (w w1 : world) (input_path output_dir : Path)
    (template_path : option Path) (e : exn) :
  opening env w input_path output_dir template_path = (Raise e, w1) ->
  (w1 = w /\
   (e = WatermarkRemovalError msg_no_input \/
    e = WatermarkRemovalError
      "Watermark template not found. Please provide 'sora2_template.pgm' in the assets directory." \/
    e = WatermarkRemovalError "Unable to read watermark template image" \/
    e = WatermarkRemovalError msg_no_capture \/
    e = OSError)) \/
  (e = WatermarkRemovalError msg_no_writer /\
   files w1 = files w /\ dirs w1 = dirs w ∪ list_to_set (prefixes output_dir)).
Proof.
  unfold opening. destruct (path_exists w input_path); simpl; [|intros [= <- <-]; left; eauto].
  destruct (_load_template _ _) as [template|e'] eqn:Hload.
  2:{ intros [= <- <-]. left. split; [done|]. unfold _load_template in Hload.
      destruct (negb _); [injection Hload as <-; eauto|].
      destruct (_ ≫= _); [done|]. injection Hload as <-; eauto. }
  destruct (_ ≫= _) as [capture|]; [|intros [= <- <-]; left; eauto 6].
  destruct (mkdir output_dir w) as [wm|e'] eqn:Hmk.
  2:{ intros [= <- <-]. left. split; [done|]. unfold mkdir in Hmk.
      destruct (existsb _ _); [injection Hmk as <-; eauto 6 | done]. }
  apply mkdir_ok in Hmk as [Hfiles Hdirs].
  destruct (writer_opens _ _ _ _); simpl; [done|].
  intros [= <- <-]. right. eauto.
Qed.

(** The ways in which a job fails, with the files each one leaves. *)
Lemma process_video_raise_cases (w w' : world) (input_path output_dir : Path)
    (template_path : option Path) (threshold : Q) (e : exn) :
  process_video env w input_path output_dir template_path threshold = (Raise e, w') ->
  let out := output_path_of input_path output_dir in
  (w' = w /\
   (e = WatermarkRemovalError msg_no_input \/
    e = WatermarkRemovalError
      "Watermark template not found. Please provide 'sora2_template.pgm' in the assets directory." \/
    e = WatermarkRemovalError "Unable to read watermark template image" \/
    e = WatermarkRemovalError msg_no_capture \/
    e = OSError)) \/
  (e = WatermarkRemovalError msg_no_writer /\ files w' = files w) \/
  (e = Cv2Error /\ files w' = <[out := created]> (files w)) \/
  (e = WatermarkRemovalError msg_not_found /\ files w' = delete out (files w)) \/
  (e = WatermarkRemovalError msg_no_output /\
   exists writer, st_size (encoded env writer) = 0%N /\
     files w' = <[out := encoded env writer]> (files w)).
Proof.
  intros Hrun out. unfold process_video in Hrun.
  destruct (opening _ _ _ _ _) as [[j|e0] w1] eqn:Hopen.
  2:{ injection Hrun as <- <-.
      apply opening_raise_cases in Hopen as [Hearly | (He & Hfiles & _)]; [by left|].
      right; left. eauto. }
  apply opening_ok in Hopen as (_ & _ & _ & Hw & _ & Hfiles & _).
  destruct (frame_loop _ _ _ _ _ _ _) as [[writer|e0] w2] eqn:Hloop.
  - apply frame_loop_ok in Hloop as (-> & Hp & _).
    rewrite Hw in Hp. simpl in Hp.
    unfold finalizing in Hrun. simpl in Hrun. rewrite lookup_insert_eq in Hrun.
    destruct (st_size (encoded env writer) =? 0)%N eqn:Hsz; [|done].
    injection Hrun as <- <-. apply N.eqb_eq in Hsz.
    do 4 right. split; [done|]. exists writer. split; [done|].
    simpl. rewrite Hp, Hfiles. apply insert_insert_eq.
  - injection Hrun as <- <-.
    apply frame_loop_first in Hloop as [[-> ->] | (-> & -> & _)].
    + right; right; left. eauto.
    + do 3 right; left. split; [done|]. simpl. rewrite Hw. simpl. rewrite Hfiles.
      by rewrite insert_insert_eq, delete_insert_eq.
Qed.


End Driver.

(** Three runs of the examples: a source without frames, the mark missing
    from the first frame, and the mark missing from the second frame only. *)
Example run_no_frames :
  let run := process_video demo_env (demo_world 25 []) demo_input demo_outputs None (35 # 100) in
  fst run = Ok ["/"; "srv"; "outputs"; "clip_clean.mp4"]%string /\
  st_size <$> files (snd run) !! output_path_of demo_input demo_outputs = Some 258%N.
Proof. split; vm_compute; reflexivity. Qed.

Example run_mark_missing_at_first :
  let run := process_video demo_env (demo_world 25 [plain_frame; marked_frame])
               demo_input demo_outputs None (35 # 100) in
  fst run = Raise (WatermarkRemovalError msg_not_found) /\
  files (snd run) !! output_path_of demo_input demo_outputs = None.
Proof. split; vm_compute; reflexivity. Qed.

Example run_mark_missing_later :
  fst (process_video demo_env (demo_world 25 [marked_frame; plain_frame])
         demo_input demo_outputs None (35 # 100)) =
  Ok ["/"; "srv"; "outputs"; "clip_clean.mp4"]%string.
Proof. vm_compute; reflexivity. Qed.

Lemma run_pair {A} (run : outcome A * world) (a : A) :
  fst run = Ok a -> run = (Ok a, snd run).
Proof. destruct run as [r w]. simpl. by intros ->. Qed.

Lemma run_pair_raise {A} (run : outcome A * world) (e : exn) :
  fst run = Raise e -> run = (Raise e, snd run).
Proof. destruct run as [r w]. simpl. by intros ->. Qed.


(** ** Frame rate *)

Section FrameRate.

Variable env : Env.

Lemma finalizing_fst (writer : VideoWriter) (w w0 : world) :
  fst (finalizing env writer w) = fst (finalizing env writer w0).
Proof.
  unfold finalizing. simpl. rewrite !lookup_insert_eq.
  by destruct (st_size (encoded env writer) =? 0)%N.
Qed.

Lemma put_file_is_Some (p q : Path) (f f' : file) (w : world) :
  files w !! p = Some f ->
  bool_decide (is_Some (files (put_file p f' w) !! q)) = bool_decide (is_Some (files w !! q)).
Proof.
  intros Hf. apply bool_decide_ext. simpl.
  destruct (decide (p = q)) as [<-|Hne];
    [rewrite lookup_insert_eq, Hf | rewrite lookup_insert_ne by done]; done.
Qed.

Lemma put_file_existsb (p : Path) (f f' : file) (w : world) (l : list Path) :
  files w !! p = Some f ->
  existsb (fun q => bool_decide (is_Some (files (put_file p f' w) !! q))) l =
  existsb (fun q => bool_decide (is_Some (files w !! q))) l.
Proof.
  intros Hf. induction l as [|q l IH]; [done|]. cbn [existsb].
  rewrite IH. f_equal. by eapply put_file_is_Some.
Qed.

(** Replacing the input by its retimed copy changes nothing the opening looks
    at, except the rate the container reports. *)
Lemma opening_retimed (w : world) (input_path output_dir : Path)
    (template_path : option Path) (f : file) :
  files w !! input_path = Some f ->
  (forall v, as_video f = Some v -> (CAP_PROP_FPS v == 0)%Q) ->
  match opening env w input_path output_dir template_path,
        opening env (put_file input_path (retimed 30 f) w) input_path output_dir template_path
  with
  | (Ok j, _), (Ok j', _) =>
      j_template j = j_template j' /\ frames (j_capture j) = frames (j_capture j') /\
      j_writer j = j_writer j'
  | (Raise e, _), (Raise e', _) => e = e'
  | _, _ => False
  end.
Proof.
  intros Hf Hzero.
  set (w' := put_file input_path (retimed 30 f) w).
  assert (Hexists : forall q, path_exists w' q = path_exists w q).
  { intros q. unfold path_exists. subst w'. by rewrite (put_file_is_Some _ _ _ _ _ Hf). }
  assert (Hload : forall tp, _load_template w' tp = _load_template w tp).
  { intros tp. unfold _load_template. rewrite Hexists.
    replace (files w' !! tp ≫= as_image) with (files w !! tp ≫= as_image); [done|].
    subst w'. simpl. destruct (decide (input_path = tp)) as [<-|Hne];
      [by rewrite lookup_insert_eq, Hf | by rewrite lookup_insert_ne]. }
  assert (Hmk : mkdir output_dir w' =
                match mkdir output_dir w with
                | Ok wm => Ok (put_file input_path (retimed 30 f) wm)
                | Raise e => Raise e
                end).
  { unfold mkdir. subst w'. rewrite (put_file_existsb _ _ _ _ _ Hf).
    by destruct (existsb _ _). }
  unfold opening. rewrite Hexists, Hload, Hmk.
  destruct (negb (path_exists w input_path)); [done|].
  destruct (_load_template w _) as [template|e]; [|done].
  assert (Hcap : files w' !! input_path = Some (retimed 30 f)) by apply lookup_insert_eq.
  rewrite Hcap, Hf. simpl.
  destruct (as_video f) as [v|] eqn:Hv; simpl; [|done].
  specialize (Hzero v eq_refl). apply Qeq_bool_iff in Hzero.
  unfold fps_or_default at 1 2. rewrite Hzero. simpl.
  destruct (mkdir output_dir w) as [wm|e]; [|done].
  destruct (writer_opens _ _ _ _); simpl; done.
Qed.

(** C9.  The writer is opened at the rate the source reports, or at 30 when
    it reports 0, and a finished job leaves a file at that rate; a source
    that reports 0 ends the job exactly as the same source reporting 30. *)
Theorem frame_rate_fallback (w : world) (input_path output_dir : Path)
    (template_path : option Path) (threshold : Q) (f : file) (source : video) :
  files w !! input_path = Some f -> as_video f = Some source ->
  let rate := fps_or_default (CAP_PROP_FPS source) in
  ((CAP_PROP_FPS source == 0)%Q -> rate = 30%Q) /\
  (~ (CAP_PROP_FPS source == 0)%Q -> rate = CAP_PROP_FPS source) /\
  (forall j w1, opening env w input_path output_dir template_path = (Ok j, w1) ->
     w_fps (j_writer j) = rate) /\
  (forall p w', process_video env w input_path output_dir template_path threshold = (Ok p, w') ->
     exists out, files w' !! p ≫= as_video = Some out /\ CAP_PROP_FPS out = rate) /\
  ((CAP_PROP_FPS source == 0)%Q ->
     fst (process_video env w input_path output_dir template_path threshold) =
     fst (process_video env (put_file input_path (retimed 30 f) w)
            input_path output_dir template_path threshold)).
Proof.
  intros Hf Hv rate.
  assert (Hsrc : files w !! input_path ≫= as_video = Some source) by (by rewrite Hf).
  split; [|split; [|split; [|split]]].
  - intros Hz. subst rate. unfold fps_or_default. apply Qeq_bool_iff in Hz. by rewrite Hz.
  - intros Hnz. subst rate. unfold fps_or_default.
    destruct (Qeq_bool (CAP_PROP_FPS source) 0) eqn:Hz; [|done].
    by apply Qeq_bool_iff in Hz.
  - intros j w1 (_ & _ & Hcap & -> & _)%opening_ok.
    rewrite Hsrc in Hcap. injection Hcap as <-. reflexivity.
  - intros p w' (j & w1 & writer & Hopen & _ & _ & _ & Hfps & _ & _ & _ & Hout & _)%process_video_ok.
    apply opening_ok in Hopen as (_ & _ & Hcap & Hw & _).
    rewrite Hsrc in Hcap. injection Hcap as Hs. rewrite <- Hs in Hw.
    rewrite Hout. simpl. eexists. split; [done|]. simpl. rewrite Hfps, Hw. reflexivity.
  - intros Hz.
    assert (Hzero : forall v, as_video f = Some v -> (CAP_PROP_FPS v == 0)%Q).
    { intros v Hv'. rewrite Hv in Hv'. by inversion Hv'; subst. }
    pose proof (opening_retimed w input_path output_dir template_path f Hf Hzero) as Hop.
    unfold process_video.
    destruct (opening env w _ _ _) as [[j|e] w1],
             (opening env (put_file _ _ _) _ _ _) as [[j'|e'] w1']; try done.
    2:{ by subst. }
    destruct Hop as (-> & -> & ->).
    pose proof (frame_loop_fst env (j_template j') threshold w1 w1' (j_writer j') None
                  (frames (j_capture j'))) as Hloop.
    destruct (frame_loop _ _ _ w1 _ _ _) as [[writer|e] w2],
             (frame_loop _ _ _ w1' _ _ _) as [[writer'|e'] w2']; simpl in Hloop; try done.
    + inversion Hloop; subst. apply finalizing_fst.
    + by inversion Hloop.
Qed.

End FrameRate.

Lemma frame_rate_fallback_witness :
  files (demo_world 0 [marked_frame; plain_frame]) !! demo_input =
    Some (video_file 0 [marked_frame; plain_frame]) /\
  fst (process_video demo_env (demo_world 0 [marked_frame; plain_frame])
         demo_input demo_outputs None (35 # 100)) =
    Ok (output_path_of demo_input demo_outputs) /\
  exists out,
    files (snd (process_video demo_env (demo_world 0 [marked_frame; plain_frame])
                  demo_input demo_outputs None (35 # 100)))
      !! output_path_of demo_input demo_outputs ≫= as_video = Some out /\
    CAP_PROP_FPS out = 30%Q.
Proof.
  assert (Hf : files (demo_world 0 [marked_frame; plain_frame]) !! demo_input =
               Some (video_file 0 [marked_frame; plain_frame])) by (vm_compute; reflexivity).
  split; [exact Hf|]. split; [vm_compute; reflexivity|].
  destruct (frame_rate_fallback demo_env (demo_world 0 [marked_frame; plain_frame])
              demo_input demo_outputs None (35 # 100) _ _ Hf eq_refl)
    as (_ & _ & _ & Hout & _).
  apply Hout. apply run_pair. vm_compute; reflexivity.
Defined.

(** ** Output path *)

Lemma prefixes_self (p : Path) : p <> [] -> p ∈ prefixes p.
Proof.
  intros Hne. unfold prefixes. apply list_elem_of_In, in_map_iff.
  exists (length p). split; [apply firstn_all|].
  apply in_seq. destruct p; [done|]. simpl. lia.
Qed.

(** C10.  A finished job returns [output_dir / (stem + "_clean.mp4")] and
    leaves [output_dir] in place; a later finished job on an input with the
    same stem returns the same path, and the file there is then the encoding
    of the frames that later job wrote, starting from an empty writer. *)
Theorem output_path_shared_by_stem (env : Env) (w w1 w2 : world)
    (input1 input2 output_dir : Path) (template1 template2 : option Path)
    (threshold1 threshold2 : Q) (p1 p2 : Path) :
  process_video env w input1 output_dir template1 threshold1 = (Ok p1, w1) ->
  process_video env w1 input2 output_dir template2 threshold2 = (Ok p2, w2) ->
  stem input1 = stem input2 ->
  p1 = output_dir ++ [stem input1 +:+ "_clean.mp4"] /\
  (output_dir <> [] -> output_dir ∈ dirs w1) /\
  p2 = p1 /\
  exists (j : job) (writer : VideoWriter),
    (exists w0, opening env w1 input2 output_dir template2 = (Ok j, w0)) /\
    w_frames (j_writer j) = [] /\
    (forall w0, frame_loop env (j_template j) threshold2 w0 (j_writer j) None
                  (frames (j_capture j)) = (Ok writer, w0)) /\
    length (w_frames writer) = length (frames (j_capture j)) /\
    files w2 !! p1 = Some (encoded env writer).
Proof.
  intros Hrun1 Hrun2 Hstem.
  apply process_video_ok in Hrun1
    as (j1 & wo1 & writer1 & Hopen1 & _ & -> & _ & _ & _ & _ & -> & _ & _).
  apply process_video_ok in Hrun2
    as (j2 & wo2 & writer2 & Hopen2 & Hloop2 & -> & _ & _ & _ & Hlen2 & _ & Hfile2 & _).
  assert (Hsame : output_path_of input2 output_dir = output_path_of input1 output_dir).
  { unfold output_path_of. by rewrite Hstem. }
  split; [reflexivity|]. split; [|split; [exact Hsame|]].
  - intros Hne. apply opening_ok in Hopen1 as (_ & _ & _ & _ & _ & _ & Hdirs).
    simpl. rewrite Hdirs. apply elem_of_union_r, elem_of_list_to_set.
    by apply prefixes_self.
  - exists j2, writer2. split; [by exists wo2|].
    apply opening_ok in Hopen2 as Hj. destruct Hj as (_ & _ & _ & Hw & _).
    split; [by rewrite Hw|]. split; [exact Hloop2|]. split; [exact Hlen2|].
    by rewrite <- Hsame.
Qed.

Lemma output_path_shared_by_stem_witness :
  let run1 := process_video demo_env demo_world_two demo_input demo_outputs None (35 # 100) in
  let run2 := process_video demo_env (snd run1) demo_input_mov demo_outputs None (35 # 100) in
  stem demo_input = stem demo_input_mov /\
  fst run1 = Ok ["/"; "srv"; "outputs"; "clip_clean.mp4"]%string /\
  fst run2 = Ok ["/"; "srv"; "outputs"; "clip_clean.mp4"]%string /\
  exists (j : job) (writer : VideoWriter),
    length (w_frames writer) = length (frames (j_capture j)) /\
    files (snd run2) !! ["/"; "srv"; "outputs"; "clip_clean.mp4"]%string =
      Some (encoded demo_env writer).
Proof.
  intros run1 run2.
  assert (Hstem : stem demo_input = stem demo_input_mov) by (vm_compute; reflexivity).
  assert (H1 : fst run1 = Ok ["/"; "srv"; "outputs"; "clip_clean.mp4"]%string)
    by (vm_compute; reflexivity).
  assert (H2 : fst run2 = Ok ["/"; "srv"; "outputs"; "clip_clean.mp4"]%string)
    by (vm_compute; reflexivity).
  split; [exact Hstem|]. split; [exact H1|]. split; [exact H2|].
  destruct (output_path_shared_by_stem demo_env demo_world_two (snd run1) (snd run2)
              demo_input demo_input_mov demo_outputs None None (35 # 100) (35 # 100)
              ["/"; "srv"; "outputs"; "clip_clean.mp4"]%string
              ["/"; "srv"; "outputs"; "clip_clean.mp4"]%string
              (run_pair run1 _ H1) (run_pair run2 _ H2) Hstem)
    as (_ & _ & _ & j & writer & _ & _ & _ & Hlen & Hfile).
  exists j, writer. by split.
Defined.

(** ** Upload endpoint *)

Lemma existsb_eqb_elem (s : string) (l : list string) :
  existsb (String.eqb s) l = true <-> s ∈ l.
Proof.
  rewrite existsb_exists, list_elem_of_In. split.
  - by intros (x & Hin & ->%String.eqb_eq).
  - intros Hin. exists s. split; [done | apply String.eqb_refl].
Qed.

(** C8.  With [ext] the lower-cased suffix of the uploaded file's name: when
    [ext] is none of .mp4, .mov, .mkv, .avi, .webm the endpoint answers 400
    and leaves the file system as it was, so the pipeline did not run; when it
    is one of them the upload is stored, the pipeline runs on it and the
    answer is not a 400; and whether the answer is a 400 does not depend on
    the uploaded content. *)
Theorem upload_extension_gate (env : Env) (w : world) (filename : string) (content : file)
    (uuid : string) :
  let ext := lower (suffix (Path_of filename)) in
  let accepted := [".mp4"; ".mov"; ".mkv"; ".avi"; ".webm"]%string in
  (ext ∉ accepted ->
     exists detail, process_upload env w filename content uuid = (HTTPException 400 detail, w)) /\
  (ext ∈ accepted ->
     rejected (fst (process_upload env w filename content uuid)) = false /\
     process_upload env w filename content uuid =
       let upload_path := joinpath (UPLOAD_DIR env) (uuid +:+ ext) in
       match process_video env (put_file upload_path content w) upload_path (OUTPUT_DIR env)
               None (35 # 100) with
       | (Raise (WatermarkRemovalError msg), w') => (HTTPException 422 msg, unlink upload_path w')
       | (Raise e, w') => (Unhandled e, w')
       | (Ok output_path, w') =>
           (FileResponse output_path (stem upload_path +:+ "_clean.mp4"), w')
       end) /\
  (forall content' uuid',
     rejected (fst (process_upload env w filename content' uuid')) =
     rejected (fst (process_upload env w filename content uuid))).
Proof.
  intros ext accepted.
  assert (Hgate : forall c u,
            (ext ∉ accepted ->
               exists detail, process_upload env w filename c u = (HTTPException 400 detail, w)) /\
            (ext ∈ accepted ->
               rejected (fst (process_upload env w filename c u)) = false /\
               process_upload env w filename c u =
                 let upload_path := joinpath (UPLOAD_DIR env) (u +:+ ext) in
                 match process_video env (put_file upload_path c w) upload_path (OUTPUT_DIR env)
                         None (35 # 100) with
                 | (Raise (WatermarkRemovalError msg), w') =>
                     (HTTPException 422 msg, unlink upload_path w')
                 | (Raise e, w') => (Unhandled e, w')
                 | (Ok output_path, w') =>
                     (FileResponse output_path (stem upload_path +:+ "_clean.mp4"), w')
                 end)).
  { intros c u. unfold process_upload. fold ext.
    destruct (String.eqb filename "") eqn:Hname.
    { apply String.eqb_eq in Hname. subst filename. split; [eauto|].
      intros Hin. vm_compute in Hin. by repeat (apply elem_of_cons in Hin as [[=] | Hin]);
        apply elem_of_nil in Hin. }
    destruct (existsb (String.eqb ext) allowed_suffixes) eqn:Hext; simpl.
    - apply existsb_eqb_elem in Hext. split; [done|]. intros _.
      unfold put_file.
      destruct (process_video _ _ _ _ _ _) as [[p|[msg| |]] w']; simpl; done.
    - split; [eauto|]. intros Hin%existsb_eqb_elem. subst accepted.
      unfold allowed_suffixes in Hext. congruence. }
  split; [apply Hgate|]. split; [apply Hgate|].
  intros content' uuid'.
  destruct (decide (ext ∈ accepted)) as [Hin|Hout].
  - destruct (Hgate content uuid) as [_ [-> _]]; [done|].
    by destruct (Hgate content' uuid') as [_ [-> _]].
  - destruct (Hgate content uuid) as [[d ->] _]; [done|].
    by destruct (Hgate content' uuid') as [[d' ->] _].
Qed.

Example upload_accepts_upper_case :
  fst (process_upload demo_env (demo_world 25 []) "Holiday.MP4"
         (video_file 25 [marked_frame]) "u1") =
  FileResponse ["/"; "srv"; "outputs"; "u1_clean.mp4"]%string "u1_clean.mp4".
Proof. vm_compute; reflexivity. Qed.

Example upload_accepts_kelvin_sign :
  let run := process_upload demo_env (demo_world 25 []) kelvin_name
               (video_file 25 [marked_frame]) "u1" in
  fst run = FileResponse ["/"; "srv"; "outputs"; "u1_clean.mp4"]%string "u1_clean.mp4" /\
  files (snd run) !! ["/"; "srv"; "uploads"; "u1.mkv"]%string =
    Some (video_file 25 [marked_frame]).
Proof. split; vm_compute; reflexivity. Qed.

Example upload_rejects_hidden_name :
  fst (process_upload demo_env (demo_world 25 []) ".mp4" (video_file 25 [marked_frame]) "u1") =
  HTTPException 400 "Unsupported file type".
Proof. vm_compute; reflexivity. Qed.

(** * Further properties of the code *)

(** ** Detector: position and threshold *)

Section DetectorMore.

Variable env : Env.

(** The detector answers whenever the template fits in the frame. *)
Lemma detect_fits_ok (image templ : gray) (threshold : Q) :
  (fst (shape templ) <= fst (shape image))%nat /\
  (snd (shape templ) <= snd (shape image))%nat ->
  exists r, _detect_watermark env image templ threshold = Ok r.
Proof.
  intros [Hh Hw].
  destruct (detect_fits env image templ threshold Hh Hw) as (x & y & _ & _ & ->). eauto.
Qed.

(** X1.  For a template that fits in the frame, a detection lies inside the
    frame it was found in: its size is the template's (width, height) and its
    box starts at non-negative coordinates and ends within the frame's width
    and height. *)
Theorem detection_inside_frame (image templ : gray) (threshold : Q) (d : WatermarkDetection) :
  (fst (shape templ) <= fst (shape image))%nat ->
  (snd (shape templ) <= snd (shape image))%nat ->
  _detect_watermark env image templ threshold = Ok (Some d) ->
  size d = (Z.of_nat (snd (shape templ)), Z.of_nat (fst (shape templ))) /\
  (0 <= fst (top_left d))%Z /\ (0 <= snd (top_left d))%Z /\
  (fst (top_left d) + fst (size d) <= Z.of_nat (snd (shape image)))%Z /\
  (snd (top_left d) + snd (size d) <= Z.of_nat (fst (shape image)))%Z.
Proof.
  intros Hh Hw Hdet.
  destruct (detect_fits env image templ threshold Hh Hw) as (x & y & [Hx Hy] & _ & Hres).
  rewrite Hres in Hdet. destruct (Qltb _ _); [done|].
  inversion Hdet; subst d. unfold shape in *. simpl in *. repeat split; lia.
Qed.

(** X2.  The threshold only gates the result: a detection returned at one
    threshold is returned unchanged at every lower one, and a frame without
    detection at one threshold has none at every higher one. *)
Theorem detect_threshold_monotone (image templ : gray) (low high : Q) :
  (low <= high)%Q ->
  (forall d, _detect_watermark env image templ high = Ok (Some d) ->
             _detect_watermark env image templ low = Ok (Some d)) /\
  (_detect_watermark env image templ low = Ok None ->
   _detect_watermark env image templ high = Ok None).
Proof.
  intros Hle. unfold _detect_watermark.
  destruct (matchTemplate env image templ) as [result|e]; simpl; [|done].
  destruct (minMaxLoc result) as [[max_val max_loc]|]; [|done].
  destruct (Qltb max_val high) eqn:Hhigh, (Qltb max_val low) eqn:Hlow; try done.
  apply Qltb_lt in Hlow. apply Qltb_ge in Hhigh.
  exfalso. apply (Qlt_not_le _ _ Hlow). by eapply Qle_trans.
Qed.

End DetectorMore.

Lemma detection_inside_frame_witness :
  _detect_watermark demo_env (cvtColor demo_env marked_frame) checker (35 # 100) =
    Ok (Some {| top_left := (1, 1)%Z; size := (2, 2)%Z; confidence := 1 |}) /\
  (1 + 2 <= Z.of_nat (snd (shape (cvtColor demo_env marked_frame))))%Z /\
  (1 + 2 <= Z.of_nat (fst (shape (cvtColor demo_env marked_frame))))%Z.
Proof.
  assert (Hdet : _detect_watermark demo_env (cvtColor demo_env marked_frame) checker (35 # 100) =
                 Ok (Some {| top_left := (1, 1)%Z; size := (2, 2)%Z; confidence := 1 |}))
    by (vm_compute; reflexivity).
  split; [exact Hdet|].
  destruct (detection_inside_frame demo_env (cvtColor demo_env marked_frame) checker (35 # 100)
              {| top_left := (1, 1)%Z; size := (2, 2)%Z; confidence := 1 |})
    as (_ & _ & _ & Hx & Hy); [vm_compute; lia | vm_compute; lia | exact Hdet |].
  split; [exact Hx | exact Hy].
Defined.

Lemma detect_threshold_monotone_witness :
  (1 # 10 <= 35 # 100)%Q /\
  _detect_watermark demo_env (cvtColor demo_env marked_frame) checker (1 # 10) =
    Ok (Some {| top_left := (1, 1)%Z; size := (2, 2)%Z; confidence := 1 |}).
Proof.
  assert (Hle : (1 # 10 <= 35 # 100)%Q) by (unfold Qle; simpl; lia).
  split; [exact Hle|].
  apply (detect_threshold_monotone demo_env (cvtColor demo_env marked_frame) checker
           (1 # 10) (35 # 100) Hle).
  vm_compute; reflexivity.
Defined.

(** ** Mask builder: the filled region *)

Lemma kernel_offsets_5_elem (d : Z) : d ∈ kernel_offsets 5 <-> (-2 <= d <= 2)%Z.
Proof.
  rewrite kernel_offsets_5, !elem_of_cons, elem_of_nil. lia.
Qed.

Lemma in_slice_box_iff (n : nat) (x w : Z) (i : nat) :
  (0 <= x)%Z -> (0 <= w)%Z -> (i < n)%nat ->
  in_slice n x (x + w) i = true <-> (x <= Z.of_nat i < x + w)%Z.
Proof.
  intros Hx Hw Hi. split; [|by apply in_slice_box].
  unfold in_slice, slice_bound.
  destruct (x <? 0)%Z eqn:H1; [apply Z.ltb_lt in H1; lia|].
  destruct (x + w <? 0)%Z eqn:H2; [apply Z.ltb_lt in H2; lia|].
  intros [H3%Z.leb_le H4%Z.ltb_lt]%andb_true_iff. lia.
Qed.

(** A pixel of the dilated block is filled exactly when the 5 by 5 window
    around it meets the slice inside the frame. *)
Lemma dilate_block_spec (H W : nat) (y0 y1 x0 x1 : Z) (r c : nat) :
  (r < H)%nat -> (c < W)%nat ->
  get 0%Z (dilate (set_block (tabulate H W (fun _ _ => 0%Z)) y0 y1 x0 x1 255) 5) r c = 255%Z <->
  exists r' c' : nat,
    (r' < H)%nat /\ (c' < W)%nat /\
    (-2 <= Z.of_nat r' - Z.of_nat r <= 2)%Z /\ (-2 <= Z.of_nat c' - Z.of_nat c <= 2)%Z /\
    in_slice H y0 y1 r' = true /\ in_slice W x0 x1 c' = true.
Proof.
  intros Hr Hc. split.
  - rewrite (dilate_get _ 5 H W) by (try apply block_shape; lia).
    intros Hmax.
    destruct (foldr_max_elem
                (dr ← kernel_offsets 5; dc ← kernel_offsets 5;
                 [get_border (set_block (tabulate H W (fun _ _ => 0%Z)) y0 y1 x0 x1 255)
                    (Z.of_nat r + dr) (Z.of_nat c + dc)])) as [H0 | Hel]; [lia|].
    rewrite Hmax in Hel.
    apply window_elem in Hel as (dr & dc & Hdr%kernel_offsets_5_elem &
                                  Hdc%kernel_offsets_5_elem & Hv).
    unfold get_border in Hv. rewrite block_shape in Hv by lia.
    destruct (_ && _ && _ && _) eqn:Hin; [|done].
    apply andb_true_iff in Hin as [[[Hr0%Z.leb_le Hr1%Z.ltb_lt]%andb_true_iff
      Hc0%Z.leb_le]%andb_true_iff Hc1%Z.ltb_lt].
    rewrite block_get in Hv by lia.
    destruct (in_slice H y0 y1 _) eqn:Hy, (in_slice W x0 x1 _) eqn:Hx; try done.
    exists (Z.to_nat (Z.of_nat r + dr)), (Z.to_nat (Z.of_nat c + dc)).
    repeat split; try done; lia.
  - intros (r' & c' & Hr' & Hc' & Hdr & Hdc & Hy & Hx).
    apply (dilate_block_fill H W _ _ _ _ r c (Z.of_nat r' - Z.of_nat r) (Z.of_nat c' - Z.of_nat c));
      try done; try (by apply kernel_offsets_5_elem); try lia.
    + by replace (Z.to_nat _) with r' by lia.
    + by replace (Z.to_nat _) with c' by lia.
Qed.

(** X3.  For a detection with non-negative position and size, a frame pixel
    of the mask is filled exactly when it is at most 2 pixels (in rows and in
    columns) away from a frame pixel of the bounding box: the margin around
    the box is 2 pixels, no more and no less. *)
Theorem build_inpaint_mask_margin (H W : nat) (d : WatermarkDetection) (r c : nat) :
  (0 <= fst (top_left d))%Z -> (0 <= snd (top_left d))%Z ->
  (0 <= fst (size d))%Z -> (0 <= snd (size d))%Z ->
  (r < H)%nat -> (c < W)%nat ->
  get 0%Z (_build_inpaint_mask (H, W) d) r c = 255%Z <->
  exists r' c' : nat,
    (r' < H)%nat /\ (c' < W)%nat /\ in_box d r' c' /\
    (-2 <= Z.of_nat r' - Z.of_nat r <= 2)%Z /\ (-2 <= Z.of_nat c' - Z.of_nat c <= 2)%Z.
Proof.
  destruct d as [[x y] [w h] conf]. simpl. intros Hx Hy Hw Hh Hr Hc.
  rewrite build_mask_unfold, dilate_block_spec by done. unfold in_box. simpl.
  split.
  - intros (r' & c' & Hr' & Hc' & Hdr & Hdc & Hiny & Hinx).
    apply in_slice_box_iff in Hiny, Hinx; try done.
    exists r', c'. repeat split; lia.
  - intros (r' & c' & Hr' & Hc' & [Hbx Hby] & Hdr & Hdc).
    exists r', c'. repeat split; try lia; apply in_slice_box_iff; done.
Qed.

(** X4.  When the bounding box has no pixel in the frame (it is empty, or it
    starts right of or below the frame) the mask is blank: nothing is marked
    for inpainting. *)
Theorem build_inpaint_mask_blank (H W : nat) (d : WatermarkDetection) (r c : nat) :
  (0 <= fst (top_left d))%Z -> (0 <= snd (top_left d))%Z ->
  (0 <= fst (size d))%Z -> (0 <= snd (size d))%Z ->
  (fst (size d) = 0 \/ snd (size d) = 0 \/
   Z.of_nat W <= fst (top_left d) \/ Z.of_nat H <= snd (top_left d))%Z ->
  (r < H)%nat -> (c < W)%nat ->
  get 0%Z (_build_inpaint_mask (H, W) d) r c = 0%Z.
Proof.
  destruct d as [[x y] [w h] conf]. simpl. intros Hx Hy Hw Hh Hmiss Hr Hc.
  rewrite build_mask_unfold.
  destruct (decide (get 0%Z (dilate (set_block (tabulate H W (fun _ _ => 0%Z))
                       y (y + h) x (x + w) 255) 5) r c = 255%Z)) as [Hfill|Hkeep].
  - apply dilate_block_spec in Hfill as (r' & c' & Hr' & Hc' & _ & _ & Hiny & Hinx); [|done..].
    apply in_slice_box_iff in Hiny, Hinx; try done. lia.
  - rewrite (dilate_get _ 5 H W) in * by (try apply block_shape; lia).
    destruct (foldr_max_elem
                (dr ← kernel_offsets 5; dc ← kernel_offsets 5;
                 [get_border (set_block (tabulate H W (fun _ _ => 0%Z)) y (y + h) x (x + w) 255)
                    (Z.of_nat r + dr) (Z.of_nat c + dc)])) as [H0 | Hel]; [done|].
    apply window_elem in Hel as (dr & dc & _ & _ & Hv).
    destruct (block_border_binary H W y (y + h) x (x + w)
                (Z.of_nat r + dr) (Z.of_nat c + dc)) as [Hb|Hb]; congruence.
Qed.

Lemma build_inpaint_mask_margin_witness :
  get 0%Z (_build_inpaint_mask (6, 8)%nat inner_detection) 4 0 = 255%Z <->
  exists r' c' : nat,
    (r' < 6)%nat /\ (c' < 8)%nat /\ in_box inner_detection r' c' /\
    (-2 <= Z.of_nat r' - Z.of_nat 4 <= 2)%Z /\ (-2 <= Z.of_nat c' - Z.of_nat 0 <= 2)%Z.
Proof.
  apply (build_inpaint_mask_margin 6 8 inner_detection 4 0); simpl; lia.
Defined.

Lemma build_inpaint_mask_blank_witness :
  get 0%Z (_build_inpaint_mask (6, 8)%nat
             {| top_left := (8, 1)%Z; size := (3, 2)%Z; confidence := 1 |}) 1 7 = 0%Z.
Proof.
  apply (build_inpaint_mask_blank 6 8
           {| top_left := (8, 1)%Z; size := (3, 2)%Z; confidence := 1 |} 1 7); simpl; lia.
Defined.

(** ** Tracker: the held detection is the best one seen *)

Lemma tracker_update_candidate (d u : WatermarkDetection) :
  (confidence u <= confidence (tracker_update d (Some u)))%Q.
Proof.
  simpl. destruct (Qle_bool (confidence d) (confidence u)) eqn:Hle; [apply Qle_refl|].
  apply Qlt_le_weak, Qnot_le_lt. intros Hle'%Qle_bool_iff. congruence.
Qed.

Lemma tracker_fold_le (d : WatermarkDetection) (candidates : list (option WatermarkDetection)) :
  (confidence d <= confidence (fold_left tracker_update candidates d))%Q.
Proof.
  revert d. induction candidates as [|c l IH]; intros d; simpl; [apply Qle_refl|].
  eapply Qle_trans; [apply tracker_update_le | apply IH].
Qed.

(** X5.  After any sequence of candidates the held detection is the initial
    one or one of the candidates, and no candidate seen (nor the initial
    detection) is more confident than it. *)
Theorem tracker_holds_best (d : WatermarkDetection)
    (candidates : list (option WatermarkDetection)) :
  let held := fold_left tracker_update candidates d in
  (held = d \/ Some held ∈ candidates) /\
  (confidence d <= confidence held)%Q /\
  (forall u, Some u ∈ candidates -> (confidence u <= confidence held)%Q).
Proof.
  simpl. revert d. induction candidates as [|c l IH]; intros d; simpl.
  - split; [by left|]. split; [apply Qle_refl|]. by intros u ?%elem_of_nil.
  - destruct (IH (tracker_update d c)) as (Hheld & Hle & Hall).
    split; [|split].
    + destruct Hheld as [-> | Hin]; [|right; by right].
      destruct c as [u|]; simpl; [|by left].
      destruct (Qle_bool (confidence d) (confidence u)); [right; by left | by left].
    + eapply Qle_trans; [apply tracker_update_le | exact Hle].
    + intros u [[= <-] | Hin]%elem_of_cons; [|by apply Hall].
      eapply Qle_trans; [apply tracker_update_candidate | exact Hle].
Qed.

(** ** Paths: the name of the output *)

Lemma append_nil (t : string) : EmptyString +:+ t = t.
Proof. reflexivity. Qed.

Lemma append_cons (a : ascii) (s t : string) : String a s +:+ t = String a (s +:+ t).
Proof. reflexivity. Qed.

Lemma length_append (s t : string) :
  String.length (s +:+ t) = (String.length s + String.length t)%nat.
Proof.
  induction s as [|a s IH]; rewrite ?append_nil, ?append_cons; simpl; [done | by rewrite IH].
Qed.

Lemma rfind_append (c : ascii) (s t : string) :
  rfind c (s +:+ t) =
  match rfind c t with
  | Some i => Some (String.length s + i)%nat
  | None => rfind c s
  end.
Proof.
  induction s as [|a s IH]; rewrite ?append_nil, ?append_cons; simpl.
  - by destruct (rfind c t).
  - rewrite IH. by destruct (rfind c t).
Qed.

Lemma substring_append_skip (s t : string) (i m : nat) :
  substring (String.length s + i) m (s +:+ t) = substring i m t.
Proof. induction s as [|a s IH]; rewrite ?append_nil, ?append_cons; simpl; done. Qed.

Lemma substring_append_keep (s t : string) (k : nat) :
  substring 0 (String.length s + k) (s +:+ t) = s +:+ substring 0 k t.
Proof.
  induction s as [|a s IH]; rewrite ?append_nil, ?append_cons; simpl; [done|].
  by rewrite IH.
Qed.

Lemma substring_whole (n : string) : substring 0 (String.length n) n = n.
Proof. induction n as [|a n IH]; simpl; [done | by rewrite IH]. Qed.

Lemma substring_split (n : string) (i : nat) :
  (i <= String.length n)%nat ->
  substring 0 i n +:+ substring i (String.length n - i) n = n.
Proof.
  revert i. induction n as [|a n IH]; intros [|i] Hi; simpl in *;
    rewrite ?append_nil, ?append_cons; try lia; try done.
  - by rewrite substring_whole.
  - f_equal. apply IH. lia.
Qed.

Lemma rfind_bound (c : ascii) (n : string) (i : nat) :
  rfind c n = Some i -> (i < String.length n)%nat.
Proof.
  revert i. induction n as [|a n IH]; intros i; simpl; [done|].
  destruct (rfind c n) as [j|].
  - intros [= <-]. specialize (IH j eq_refl). lia.
  - destruct (Ascii.eqb a c); [intros [= <-]; lia | done].
Qed.

(** X6.  A name is its stem followed by its suffix, and a suffix is either
    empty or a dot followed by at least one character. *)
Theorem stem_suffix_name (p : Path) :
  stem p +:+ suffix p = name p /\
  (suffix p = EmptyString \/
   exists rest, suffix p = String "." rest /\ rest <> EmptyString /\
                rfind "." rest = None).
Proof.
  assert (Hnil : forall s : string, s +:+ EmptyString = s).
  { intros s. induction s as [|a s IH]; rewrite ?append_nil, ?append_cons; [done | by rewrite IH]. }
  unfold stem, suffix. set (n := name p).
  destruct (rfind "." n) as [i|] eqn:Hdot; [|by split; [apply Hnil | left]].
  pose proof (rfind_bound _ _ _ Hdot) as Hi.
  destruct ((0 <? i)%nat && (i <? String.length n - 1)%nat) eqn:Hmid;
    [|by split; [apply Hnil | left]].
  apply andb_true_iff in Hmid as [H0%Nat.ltb_lt H1%Nat.ltb_lt].
  split; [apply substring_split; lia|]. right.
  clear H0. revert i Hdot Hi H1. generalize n. clear n.
  induction n as [|a n IH]; intros i Hdot Hi H1; simpl in *; [lia|].
  destruct (rfind "." n) as [j|] eqn:Hrest.
  - injection Hdot as <-. simpl.
    destruct (IH j eq_refl) as (rest & Hsuf & Hne & Hno); [lia..|]. eauto.
  - destruct (Ascii.eqb a ".") eqn:Ha; [|done]. injection Hdot as <-.
    apply Ascii.eqb_eq in Ha. subst a. simpl.
    exists n. split; [|split; [|done]].
    + f_equal. rewrite ?Nat.sub_0_r. apply substring_whole.
    + intros ->. simpl in H1. lia.
Qed.

Lemma output_name (input_path output_dir : Path) :
  name (output_path_of input_path output_dir) = stem input_path +:+ "_clean.mp4".
Proof.
  unfold name, output_path_of, joinpath. rewrite last_snoc.
  destruct (String.eqb _ "/") eqn:Heq; [|done].
  apply String.eqb_eq in Heq. apply (f_equal String.length) in Heq.
  rewrite length_append in Heq. simpl in Heq. lia.
Qed.

Lemma output_stem_suffix (input_path output_dir : Path) :
  stem (output_path_of input_path output_dir) = stem input_path +:+ "_clean" /\
  suffix (output_path_of input_path output_dir) = ".mp4"%string.
Proof.
  unfold stem at 1, suffix. rewrite output_name.
  set (s := stem input_path).
  rewrite rfind_append. change (rfind "." "_clean.mp4") with (Some 6%nat).
  rewrite length_append. change (String.length "_clean.mp4") with 10%nat.
  replace ((0 <? String.length s + 6)%nat && (String.length s + 6 <? String.length s + 10 - 1)%nat)
    with true by (symmetry; apply andb_true_iff; split; apply Nat.ltb_lt; lia).
  split.
  - by rewrite substring_append_keep.
  - replace (String.length s + 10 - (String.length s + 6))%nat with 4%nat by lia.
    by rewrite substring_append_skip.
Qed.

Lemma output_path_not_input (input_path output_dir : Path) :
  output_path_of input_path output_dir <> input_path.
Proof.
  intros Heq.
  destruct (output_stem_suffix input_path output_dir) as [Hstem _].
  rewrite Heq in Hstem. apply (f_equal String.length) in Hstem.
  rewrite length_append in Hstem. simpl in Hstem. lia.
Qed.

(** X7.  Whatever the input's name and extension, the output is named
    [stem + "_clean.mp4"]: its suffix is [.mp4], its stem is the input's stem
    followed by [_clean], and so the output path is never the input path. *)
Theorem output_path_shape (input_path output_dir : Path) :
  name (output_path_of input_path output_dir) = stem input_path +:+ "_clean.mp4" /\
  suffix (output_path_of input_path output_dir) = ".mp4"%string /\
  stem (output_path_of input_path output_dir) = stem input_path +:+ "_clean" /\
  output_path_of input_path output_dir <> input_path.
Proof.
  split; [apply output_name|].
  split; [apply output_stem_suffix|].
  split; [apply output_stem_suffix | apply output_path_not_input].
Qed.

(** ** Pipeline driver: what a job does to the file system *)

Section DriverEffects.

Variable env : Env.

(** Every job, failed or not, leaves all files but the output file alone. *)
Lemma process_video_files (w : world) (input_path output_dir : Path)
    (template_path : option Path) (threshold : Q) (q : Path) :
  q <> output_path_of input_path output_dir ->
  files (snd (process_video env w input_path output_dir template_path threshold)) !! q =
  files w !! q.
Proof.
  intros Hq.
  assert (Hq' : output_path_of input_path output_dir <> q) by congruence.
  destruct (process_video env w input_path output_dir template_path threshold)
    as [[p|e] w'] eqn:Hrun; simpl.
  - apply process_video_ok in Hrun
      as (j & w1 & writer & Hopen & _ & -> & Hp & _ & _ & _ & -> & _).
    apply opening_ok in Hopen as (_ & _ & _ & _ & _ & Hfiles & _).
    simpl. rewrite Hp, Hfiles. by rewrite !lookup_insert_ne by done.
  - apply process_video_raise_cases in Hrun
      as [[-> _] | [[_ ->] | [[_ ->] | [[_ ->] | (_ & writer & _ & ->)]]]]; try done.
    + by rewrite lookup_insert_ne by done.
    + by rewrite lookup_delete_ne by done.
    + by rewrite lookup_insert_ne by done.
Qed.

(** X8.  A job changes no file other than the one at its output path,
    whether it succeeds or fails; in particular the input file is still
    there, unchanged, afterwards. *)
Theorem process_video_touches_only_output (w : world) (input_path output_dir : Path)
    (template_path : option Path) (threshold : Q) :
  (forall q, q <> output_path_of input_path output_dir ->
     files (snd (process_video env w input_path output_dir template_path threshold)) !! q =
     files w !! q) /\
  files (snd (process_video env w input_path output_dir template_path threshold)) !! input_path =
  files w !! input_path.
Proof.
  split; [intros q; apply process_video_files|].
  apply process_video_files. intros Heq. by eapply output_path_not_input.
Qed.

(** X9.  A job can fail in nine ways only.  The five failures that come
    before the output directory is made (input missing, template missing or
    unreadable, capture not opened, directory not creatable) leave the file
    system exactly as it was; the others are the writer not opening, an
    OpenCV error in the loop, the watermark not found, and no output. *)
Theorem process_video_failures (w w' : world) (input_path output_dir : Path)
    (template_path : option Path) (threshold : Q) (e : exn) :
  process_video env w input_path output_dir template_path threshold = (Raise e, w') ->
  (w' = w /\
   (e = WatermarkRemovalError "Input video does not exist" \/
    e = WatermarkRemovalError
      "Watermark template not found. Please provide 'sora2_template.pgm' in the assets directory." \/
    e = WatermarkRemovalError "Unable to read watermark template image" \/
    e = WatermarkRemovalError "Could not open input video" \/
    e = OSError)) \/
  e = WatermarkRemovalError "Could not initialise video writer" \/
  e = Cv2Error \/
  e = WatermarkRemovalError
    "Unable to detect the Sora 2 watermark. Try adjusting the template or threshold." \/
  e = WatermarkRemovalError "Failed to generate cleaned video".
Proof.
  intros Hrun.
  apply process_video_raise_cases in Hrun
    as [Hearly | [[-> _] | [[-> _] | [[-> _] | (-> & _)]]]]; [by left|..]; right; eauto.
Qed.

(** What the detector's answer looks like, when it is a detection. *)
Lemma detect_some_spec (image templ : gray) (threshold : Q) (d : WatermarkDetection) :
  _detect_watermark env image templ threshold = Ok (Some d) ->
  (threshold <= confidence d)%Q /\
  size d = (Z.of_nat (snd (shape templ)), Z.of_nat (fst (shape templ))).
Proof.
  by intros (Hthr & Hsize & _)%detect_some_score.
Qed.

(** The frames a finished loop wrote: one per frame read, in order, each the
    inpainting of its frame under the mask of a detection that cleared the
    threshold and has the template's size. *)
Lemma frame_loop_frames (template : gray) (threshold : Q) (w w' : world)
    (writer writer' : VideoWriter) (detection : option WatermarkDetection)
    (capture : list frame) :
  (forall d, detection = Some d ->
     (threshold <= confidence d)%Q /\
     size d = (Z.of_nat (snd (shape template)), Z.of_nat (fst (shape template)))) ->
  frame_loop env template threshold w writer detection capture = (Ok writer', w') ->
  exists cleaned,
    w_frames writer' = w_frames writer ++ cleaned /\
    Forall2 (fun fr out => exists d,
               (threshold <= confidence d)%Q /\
               size d = (Z.of_nat (snd (shape template)), Z.of_nat (fst (shape template))) /\
               out = inpaint env fr (_build_inpaint_mask (shape (cvtColor env fr)) d))
            capture cleaned.
Proof.
  revert writer detection.
  induction capture as [|fr capture IH]; intros writer detection Hinv; simpl.
  - intros [= <- _]. exists []. split; [by rewrite app_nil_r | constructor].
  - assert (Hstep : forall d,
              (threshold <= confidence d)%Q /\
              size d = (Z.of_nat (snd (shape template)), Z.of_nat (fst (shape template))) ->
              frame_loop env template threshold w
                (write writer (inpaint env fr (_build_inpaint_mask (shape (cvtColor env fr)) d)))
                (Some d) capture = (Ok writer', w') ->
              exists cleaned,
                w_frames writer' = w_frames writer ++ cleaned /\
                Forall2 (fun fr out => exists d,
                   (threshold <= confidence d)%Q /\
                   size d = (Z.of_nat (snd (shape template)), Z.of_nat (fst (shape template))) /\
                   out = inpaint env fr (_build_inpaint_mask (shape (cvtColor env fr)) d))
                  (fr :: capture) cleaned).
    { intros d Hd Hloop.
      apply IH in Hloop as (cleaned & Hframes & Hall); [|by intros d' [= <-]].
      simpl in Hframes. rewrite <- app_assoc in Hframes. simpl in Hframes.
      eexists. split; [exact Hframes|]. constructor; [|done].
      exists d. by destruct Hd. }
    destruct detection as [current|].
    + destruct (_detect_watermark env (cvtColor env fr) template threshold)
        as [updated|e] eqn:Hdet; [|done].
      apply Hstep. destruct updated as [u|]; simpl; [|by apply Hinv].
      destruct (Qle_bool (confidence current) (confidence u)); [|by apply Hinv].
      by eapply detect_some_spec.
    + destruct (_detect_watermark env (cvtColor env fr) template threshold)
        as [[d|]|e] eqn:Hdet; [|done..].
      apply Hstep. by eapply detect_some_spec.
Qed.

(** X10.  A finished job has handed the writer, opened at the source's frame
    size, one frame per source frame, in order; each is the inpainting of its
    source frame under the mask of a detection that cleared the threshold and
    has the template's size.  The file at the returned path is what the codec
    made of these frames, and it is not empty. *)
Theorem process_video_output_frames (w w' : world) (input_path output_dir : Path)
    (template_path : option Path) (threshold : Q) (p : Path) :
  process_video env w input_path output_dir template_path threshold = (Ok p, w') ->
  exists (template : gray) (source : video) (writer : VideoWriter),
    _load_template w (default (DEFAULT_TEMPLATE env) template_path) = Ok template /\
    files w !! input_path ≫= as_video = Some source /\
    w_frame_size writer = (CAP_PROP_FRAME_WIDTH source, CAP_PROP_FRAME_HEIGHT source) /\
    Forall2 (fun fr cleaned => exists d,
               (threshold <= confidence d)%Q /\
               size d = (Z.of_nat (snd (shape template)), Z.of_nat (fst (shape template))) /\
               cleaned = inpaint env fr (_build_inpaint_mask (shape (cvtColor env fr)) d))
            (frames source) (w_frames writer) /\
    files w' !! p = Some (encoded env writer) /\
    st_size (encoded env writer) <> 0%N.
Proof.
  intros (j & w1 & writer & Hopen & Hloop & _ & _ & _ & Hsize & _ & _ & Hfile & Hnz)%process_video_ok.
  apply opening_ok in Hopen as (_ & Hload & Hcap & Hw & _).
  specialize (Hloop w1).
  apply frame_loop_frames in Hloop as (cleaned & Hframes & Hall); [|done].
  rewrite Hw in Hframes, Hsize. simpl in Hframes, Hsize.
  exists (j_template j), (j_capture j), writer.
  split; [done|]. split; [done|]. split; [done|].
  split; [by rewrite Hframes | done].
Qed.

End DriverEffects.

Lemma process_video_failures_witness :
  let w := demo_world 25 [marked_frame] in
  let e := WatermarkRemovalError "Input video does not exist" in
  process_video demo_env w ["/"; "srv"; "uploads"; "gone.mp4"]%string demo_outputs None
    (35 # 100) = (Raise e, w) /\
  ((w = w /\
    (e = WatermarkRemovalError "Input video does not exist" \/
     e = WatermarkRemovalError
       "Watermark template not found. Please provide 'sora2_template.pgm' in the assets directory." \/
     e = WatermarkRemovalError "Unable to read watermark template image" \/
     e = WatermarkRemovalError "Could not open input video" \/
     e = OSError)) \/
   e = WatermarkRemovalError "Could not initialise video writer" \/
   e = Cv2Error \/
   e = WatermarkRemovalError
     "Unable to detect the Sora 2 watermark. Try adjusting the template or threshold." \/
   e = WatermarkRemovalError "Failed to generate cleaned video").
Proof.
  intros w e.
  assert (Hrun : process_video demo_env w ["/"; "srv"; "uploads"; "gone.mp4"]%string
                   demo_outputs None (35 # 100) = (Raise e, w)) by (vm_compute; reflexivity).
  exact (conj Hrun (process_video_failures demo_env _ _ _ _ _ _ _ Hrun)).
Defined.

Lemma process_video_output_frames_witness :
  let run := process_video demo_env (demo_world 25 [marked_frame; plain_frame])
               demo_input demo_outputs None (35 # 100) in
  fst run = Ok (output_path_of demo_input demo_outputs) /\
  exists (source : video) (writer : VideoWriter),
    files (demo_world 25 [marked_frame; plain_frame]) !! demo_input ≫= as_video = Some source /\
    w_frame_size writer = (CAP_PROP_FRAME_WIDTH source, CAP_PROP_FRAME_HEIGHT source) /\
    length (w_frames writer) = length (frames source) /\
    files (snd run) !! output_path_of demo_input demo_outputs = Some (encoded demo_env writer).
Proof.
  intros run.
  assert (Hrun : fst run = Ok (output_path_of demo_input demo_outputs))
    by (vm_compute; reflexivity).
  split; [exact Hrun|].
  destruct (process_video_output_frames demo_env _ _ _ _ _ _ _ (run_pair run _ Hrun))
    as (template & source & writer & _ & Hsrc & Hsize & Hall & Hf & _).
  exists source, writer. split; [exact Hsrc|]. split; [exact Hsize|].
  split; [|exact Hf]. symmetry. by eapply Forall2_length.
Defined.

(** ** Upload endpoint: what a request leaves behind *)

Lemma append_nil_r (s : string) : s +:+ EmptyString = s.
Proof.
  induction s as [|a s IH]; rewrite ?append_nil, ?append_cons; [done | by rewrite IH].
Qed.

(** The stem of a stored upload is the identifier drawn for it. *)
Lemma upload_stem (dir : Path) (uuid ext : string) :
  uuid <> EmptyString -> existsb (String.eqb ext) allowed_suffixes = true ->
  stem (joinpath dir (uuid +:+ ext)) = uuid.
Proof.
  intros Hne Hext.
  assert (Hdot : rfind "." ext = Some 0%nat /\ (4 <= String.length ext)%nat).
  { apply existsb_eqb_elem in Hext. unfold allowed_suffixes in Hext.
    repeat (apply elem_of_cons in Hext as [-> | Hext]; [split; [reflexivity | simpl; lia]|]).
    by apply elem_of_nil in Hext. }
  destruct Hdot as [Hdot Hlen].
  assert (Hname : name (joinpath dir (uuid +:+ ext)) = uuid +:+ ext).
  { unfold name, joinpath. rewrite last_snoc.
    destruct (String.eqb _ "/") eqn:Heq; [|done].
    apply String.eqb_eq in Heq. apply (f_equal String.length) in Heq.
    rewrite length_append in Heq. simpl in Heq. lia. }
  unfold stem. rewrite Hname, rfind_append, Hdot, length_append.
  assert (Hpos : (0 < String.length uuid)%nat) by (destruct uuid; [done | simpl; lia]).
  replace ((0 <? String.length uuid + 0)%nat &&
           (String.length uuid + 0 <? String.length uuid + String.length ext - 1)%nat)
    with true by (symmetry; apply andb_true_iff; split; apply Nat.ltb_lt; lia).
  rewrite substring_append_keep. simpl. destruct ext; apply append_nil_r.
Qed.

Section UploadEffects.

Variable env : Env.

(** The endpoint, once the name passed the two checks. *)
Lemma process_upload_accepted (w : world) (filename : string) (content : file) (uuid : string) :
  existsb (String.eqb (lower (suffix (Path_of filename)))) allowed_suffixes = true ->
  process_upload env w filename content uuid =
    let upload_path := upload_path_of env filename uuid in
    match process_video env (put_file upload_path content w) upload_path (OUTPUT_DIR env)
            None (35 # 100) with
    | (Raise (WatermarkRemovalError msg), w') => (HTTPException 422 msg, unlink upload_path w')
    | (Raise e, w') => (Unhandled e, w')
    | (Ok output_path, w') =>
        (FileResponse output_path (stem upload_path +:+ "_clean.mp4"), w')
    end.
Proof.
  intros Hext. unfold process_upload.
  destruct (String.eqb filename "") eqn:Hname.
  { apply String.eqb_eq in Hname. subst filename. by vm_compute in Hext. }
  by rewrite Hext.
Qed.

(** Whether a request is turned down with a 400. *)
Lemma process_upload_rejected (w : world) (filename : string) (content : file) (uuid : string) :
  rejected (fst (process_upload env w filename content uuid)) =
  negb (existsb (String.eqb (lower (suffix (Path_of filename)))) allowed_suffixes).
Proof.
  destruct (existsb _ allowed_suffixes) eqn:Hext.
  - rewrite process_upload_accepted by done. simpl.
    by destruct (process_video _ _ _ _ _ _) as [[p|[msg| |]] w'].
  - unfold process_upload. destruct (String.eqb filename ""); [done|]. by rewrite Hext.
Qed.

(** An answer other than a 400 means that the name passed the checks. *)
Lemma process_upload_ran (w w' : world) (filename : string) (content : file) (uuid : string)
    (r : response) :
  process_upload env w filename content uuid = (r, w') -> rejected r = false ->
  existsb (String.eqb (lower (suffix (Path_of filename)))) allowed_suffixes = true.
Proof.
  intros Hup Hrej. pose proof (process_upload_rejected w filename content uuid) as H.
  rewrite Hup in H. cbn [fst] in H. rewrite Hrej in H.
  destruct (existsb _ _); simpl in H; done.
Qed.

(** X11.  When the pipeline raises a removal error the endpoint answers 422
    with the error's message and the stored upload is gone. *)
Theorem upload_422_removes_upload (w w' : world) (filename : string) (content : file)
    (uuid msg : string) :
  process_upload env w filename content uuid = (HTTPException 422 msg, w') ->
  fst (process_video env (put_file (upload_path_of env filename uuid) content w)
         (upload_path_of env filename uuid) (OUTPUT_DIR env) None (35 # 100)) =
    Raise (WatermarkRemovalError msg) /\
  files w' !! upload_path_of env filename uuid = None.
Proof.
  intros Hup. pose proof (process_upload_ran _ _ _ _ _ _ Hup eq_refl) as Hext.
  rewrite process_upload_accepted in Hup by done. simpl in Hup.
  destruct (process_video _ _ _ _ _ _) as [[p|[m| |]] w1]; try done.
  injection Hup as -> <-. split; [done|]. apply lookup_delete_eq.
Qed.

(** X12.  Only removal errors are caught: any other exception of the
    pipeline leaves the endpoint unhandled, and the stored upload stays on
    disk. *)
Theorem upload_unhandled_keeps_upload (w w' : world) (filename : string) (content : file)
    (uuid : string) (e : exn) :
  process_upload env w filename content uuid = (Unhandled e, w') ->
  (e = Cv2Error \/ e = OSError) /\
  files w' !! upload_path_of env filename uuid = Some content.
Proof.
  intros Hup. pose proof (process_upload_ran _ _ _ _ _ _ Hup eq_refl) as Hext.
  rewrite process_upload_accepted in Hup by done. simpl in Hup.
  pose proof (process_video_files env (put_file (upload_path_of env filename uuid) content w)
                (upload_path_of env filename uuid) (OUTPUT_DIR env) None (35 # 100)
                (upload_path_of env filename uuid)) as Hkeep.
  destruct (process_video _ _ _ _ _ _) as [[p|[m| |]] w1]; try done;
    injection Hup as <- <-; (split; [eauto|]); simpl in Hkeep;
    (rewrite Hkeep; [apply lookup_insert_eq|]);
    intros Heq; symmetry in Heq; by apply output_path_not_input in Heq.
Qed.

(** X13.  A successful request is answered with the file
    [OUTPUT_DIR / (uuid + "_clean.mp4")] under the download name
    [uuid + "_clean.mp4"]: the client's file name contributes nothing but its
    suffix.  The file is there and not empty, and the stored upload is still
    on disk when the answer is handed over. *)
Theorem upload_success_names (w w' : world) (filename : string) (content : file)
    (uuid : string) (p : Path) (download : string) :
  uuid <> EmptyString ->
  process_upload env w filename content uuid = (FileResponse p download, w') ->
  download = uuid +:+ "_clean.mp4" /\
  p = joinpath (OUTPUT_DIR env) (uuid +:+ "_clean.mp4") /\
  (exists f, files w' !! p = Some f /\ st_size f <> 0%N) /\
  files w' !! upload_path_of env filename uuid = Some content.
Proof.
  intros Hne Hup. pose proof (process_upload_ran _ _ _ _ _ _ Hup eq_refl) as Hext.
  rewrite process_upload_accepted in Hup by done. simpl in Hup.
  pose proof (process_video_files env (put_file (upload_path_of env filename uuid) content w)
                (upload_path_of env filename uuid) (OUTPUT_DIR env) None (35 # 100)
                (upload_path_of env filename uuid)) as Hkeep.
  destruct (process_video _ _ _ _ _ _) as [[p0|[m| |]] w1] eqn:Hrun; try done.
  injection Hup as <- <- <-.
  assert (Hstem : stem (upload_path_of env filename uuid) = uuid) by (by apply upload_stem).
  apply process_video_ok in Hrun as (_ & _ & writer & _ & _ & -> & _ & _ & _ & _ & _ & Hf & Hnz).
  unfold output_path_of in *. rewrite Hstem in *.
  split; [done|]. split; [done|]. split; [eauto|].
  simpl in Hkeep. rewrite Hkeep; [apply lookup_insert_eq|].
  intros Heq. symmetry in Heq. rewrite <- Hstem in Heq at 1.
  by apply (output_path_not_input (upload_path_of env filename uuid) (OUTPUT_DIR env)) in Heq.
Qed.

(** X14.  A successful request followed by its cleanup leaves no file behind:
    when neither the upload's path nor the output's path was taken before the
    request, the files afterwards are exactly the files before. *)
Theorem upload_cleanup_restores_files (w w' : world) (filename : string) (content : file)
    (uuid : string) (p : Path) (download : string) :
  process_upload env w filename content uuid = (FileResponse p download, w') ->
  files w !! upload_path_of env filename uuid = None ->
  files w !! p = None ->
  files (cleanup_files (upload_path_of env filename uuid) p w') = files w.
Proof.
  intros Hup Hfresh Hfree. pose proof (process_upload_ran _ _ _ _ _ _ Hup eq_refl) as Hext.
  rewrite process_upload_accepted in Hup by done. simpl in Hup.
  set (up := upload_path_of env filename uuid) in *.
  pose proof (process_video_files env (put_file up content w) up (OUTPUT_DIR env) None
                (35 # 100)) as Hkeep.
  destruct (process_video _ _ _ _ _ _) as [[p0|[m| |]] w1] eqn:Hrun; try done.
  injection Hup as <- _ <-.
  apply process_video_ok in Hrun as (_ & _ & _ & _ & _ & Hp & _).
  simpl in Hkeep. apply map_eq. intros q. simpl.
  destruct (decide (q = p0)) as [->|Hq]; [by rewrite lookup_delete_eq|].
  rewrite lookup_delete_ne by done.
  destruct (decide (q = up)) as [->|Hq']; [by rewrite lookup_delete_eq|].
  rewrite lookup_delete_ne by done.
  rewrite Hkeep by congruence. by rewrite lookup_insert_ne.
Qed.

End UploadEffects.

Lemma answer_pair (run : response * world) (r : response) :
  fst run = r -> run = (r, snd run).
Proof. destruct run as [r' w]. simpl. by intros ->. Qed.

Lemma upload_422_removes_upload_witness :
  let run := process_upload demo_env (demo_world 25 []) "plain.mp4"
               (video_file 25 [plain_frame]) "u1" in
  fst run = HTTPException 422 msg_not_found /\
  files (snd run) !! upload_path_of demo_env "plain.mp4" "u1" = None.
Proof.
  intros run.
  assert (Hrun : fst run = HTTPException 422 msg_not_found) by (vm_compute; reflexivity).
  split; [exact Hrun|].
  exact (proj2 (upload_422_removes_upload demo_env _ _ _ _ _ _ (answer_pair run _ Hrun))).
Defined.

Lemma upload_unhandled_keeps_upload_witness :
  let run := process_upload demo_env demo_world_blocked "clip.mp4"
               (video_file 25 [marked_frame]) "u1" in
  fst run = Unhandled OSError /\
  files (snd run) !! upload_path_of demo_env "clip.mp4" "u1" =
    Some (video_file 25 [marked_frame]).
Proof.
  intros run.
  assert (Hrun : fst run = Unhandled OSError) by (vm_compute; reflexivity).
  split; [exact Hrun|].
  exact (proj2 (upload_unhandled_keeps_upload demo_env _ _ _ _ _ _ (answer_pair run _ Hrun))).
Defined.

Lemma upload_success_names_witness :
  let run := process_upload demo_env (demo_world 25 []) "Holiday.MP4"
               (video_file 25 [marked_frame]) "u1" in
  ("u1" <> EmptyString)%string /\
  fst run = FileResponse ["/"; "srv"; "outputs"; "u1_clean.mp4"]%string "u1_clean.mp4" /\
  files (snd run) !! upload_path_of demo_env "Holiday.MP4" "u1" =
    Some (video_file 25 [marked_frame]).
Proof.
  intros run.
  assert (Hne : ("u1" <> EmptyString)%string) by discriminate.
  assert (Hrun : fst run =
                 FileResponse ["/"; "srv"; "outputs"; "u1_clean.mp4"]%string "u1_clean.mp4")
    by (vm_compute; reflexivity).
  split; [exact Hne|]. split; [exact Hrun|].
  destruct (upload_success_names demo_env _ _ _ _ _ _ _ Hne (answer_pair run _ Hrun))
    as (_ & _ & _ & Hkept).
  exact Hkept.
Defined.

Lemma upload_cleanup_restores_files_witness :
  let w := demo_world 25 [] in
  let run := process_upload demo_env w "Holiday.MP4" (video_file 25 [marked_frame]) "u1" in
  let up := upload_path_of demo_env "Holiday.MP4" "u1" in
  let out := ["/"; "srv"; "outputs"; "u1_clean.mp4"]%string in
  fst run = FileResponse out "u1_clean.mp4" /\
  files w !! up = None /\ files w !! out = None /\
  files (cleanup_files up out (snd run)) = files w.
Proof.
  intros w run up out.
  assert (Hrun : fst run = FileResponse out "u1_clean.mp4") by (vm_compute; reflexivity).
  assert (Hup : files w !! up = None) by (vm_compute; reflexivity).
  assert (Hout : files w !! out = None) by (vm_compute; reflexivity).
  split; [exact Hrun|]. split; [exact Hup|]. split; [exact Hout|].
  exact (upload_cleanup_restores_files demo_env _ _ _ _ _ _ _ (answer_pair run _ Hrun) Hup Hout).
Defined.

(** ** Upload endpoint: the check ignores letter case *)

Lemma lower_ascii_eqb_dot (c : ascii) : Ascii.eqb (lower_ascii c) "." = Ascii.eqb c ".".
Proof. by destruct c as [[] [] [] [] [] [] [] []]. Qed.

Lemma lower_ascii_eqb_slash (c : ascii) : Ascii.eqb (lower_ascii c) "/" = Ascii.eqb c "/".
Proof. by destruct c as [[] [] [] [] [] [] [] []]. Qed.

Lemma is_kelvin_bytes (a b c : ascii) :
  is_kelvin a b c = true ->
  a = ascii_of_nat 226 /\ b = ascii_of_nat 132 /\ c = ascii_of_nat 170.
Proof.
  unfold is_kelvin.
  by intros [[Ha%Ascii.eqb_eq Hb%Ascii.eqb_eq]%andb_true_iff Hc%Ascii.eqb_eq]%andb_true_iff.
Qed.

Lemma lower_kelvin (a b c : ascii) (s : string) :
  is_kelvin a b c = true ->
  lower (String a (String b (String c s))) = String "k" (lower s).
Proof. intros Hk. cbn [lower]. by rewrite Hk. Qed.

Lemma lower_plain (a : ascii) (s : string) :
  kelvin_head (String a s) = false ->
  lower (String a s) = String (lower_ascii a) (lower s).
Proof.
  destruct s as [|b [|c s]]; [done..|]. intros Hk. cbn [kelvin_head] in Hk.
  change (lower (String a (String b (String c s))))
    with (if is_kelvin a b c then String "k" (lower s)
          else String (lower_ascii a) (lower (String b (String c s)))).
  by rewrite Hk.
Qed.

Lemma kelvin_ind (P : string -> Prop) :
  P EmptyString ->
  (forall a b c s, is_kelvin a b c = true -> P s -> P (String a (String b (String c s)))) ->
  (forall a s, kelvin_head (String a s) = false -> P s -> P (String a s)) ->
  forall s, P s.
Proof.
  intros Hnil Hk Hp s.
  assert (Hall : forall n s, (String.length s <= n)%nat -> P s).
  { clear s. induction n as [|n IH]; intros [|a s] Hlen; simpl in Hlen; [done | lia | done |].
    destruct (kelvin_head (String a s)) eqn:Hhead.
    - destruct s as [|b [|c s]]; [done..|]. simpl in Hlen.
      apply Hk; [done|]. apply IH. lia.
    - apply Hp; [done|]. apply IH. lia. }
  by apply (Hall (String.length s)).
Qed.

Lemma lower_eqb_nil (s : string) : String.eqb (lower s) "" = String.eqb s "".
Proof.
  destruct s as [|a [|b [|c s]]]; [done..|]. cbn [lower].
  by destruct (is_kelvin a b c).
Qed.

Lemma lower_eqb_one (s : string) (x : ascii) :
  (forall a, Ascii.eqb (lower_ascii a) x = Ascii.eqb a x) ->
  Ascii.eqb "k" x = false ->
  String.eqb (lower s) (String x EmptyString) = String.eqb s (String x EmptyString).
Proof.
  intros Hx Hk. destruct s as [|a [|b s]]; [done|..].
  - simpl. by rewrite Hx.
  - destruct (kelvin_head (String a (String b s))) eqn:Hhead.
    + destruct s as [|c s]; [done|]. rewrite lower_kelvin by done.
      change (String.eqb (String ?a ?s) (String ?b ?t))
        with (if Ascii.eqb a b then String.eqb s t else false).
      rewrite Hk. by destruct (Ascii.eqb a x).
    + rewrite lower_plain by done.
      change (String.eqb (String ?a ?s) (String ?b ?t))
        with (if Ascii.eqb a b then String.eqb s t else false).
      rewrite Hx, lower_eqb_nil. simpl. by destruct (Ascii.eqb a x).
Qed.

Lemma split_cons (sep : ascii) (s : string) : exists p ps, split sep s = p :: ps.
Proof.
  induction s as [|a s (p & ps & IH)]; simpl; [eauto|].
  destruct (Ascii.eqb a sep); [eauto|]. rewrite IH. eauto.
Qed.

(** The first part of a string begins as the string does. *)
Lemma split_head (sep : ascii) (s p p' : string) (ps : list string) (b c : ascii) :
  split sep s = p :: ps -> p = String b (String c p') ->
  exists s', s = String b (String c s').
Proof.
  intros Hs ->. destruct s as [|x [|y s]]; simpl in Hs.
  - done.
  - by destruct (Ascii.eqb x sep).
  - destruct (Ascii.eqb x sep); [done|].
    destruct (Ascii.eqb y sep); [done|].
    destruct (split sep s); inversion Hs; eauto.
Qed.

Lemma split_lower (s : string) : split "/" (lower s) = map lower (split "/" s).
Proof.
  induction s as [|a b c s Hk IH|a s Hhead IH] using kelvin_ind; [done|..].
  - rewrite lower_kelvin by done.
    destruct (split_cons "/" s) as (p & ps & Hs).
    apply is_kelvin_bytes in Hk as Hb. destruct Hb as (-> & -> & ->).
    cbn [split]. rewrite IH, Hs.
    change (Ascii.eqb _ "/") with false. cbn [map].
    by rewrite lower_kelvin.
  - rewrite lower_plain by done. cbn [split].
    rewrite lower_ascii_eqb_slash, IH.
    destruct (Ascii.eqb a "/"); [done|].
    destruct (split_cons "/" s) as (p & ps & Hs). rewrite Hs. cbn [map]. f_equal.
    symmetry. apply lower_plain.
    destruct p as [|b [|c p]]; [done..|].
    destruct (split_head _ _ _ _ _ _ _ Hs eq_refl) as [s' ->]. exact Hhead.
Qed.

Lemma filter_parts_lower (l : list string) :
  filter (fun part => negb (String.eqb part "") && negb (String.eqb part ".")) (map lower l) =
  map lower (filter (fun part => negb (String.eqb part "") && negb (String.eqb part ".")) l).
Proof.
  induction l as [|s l IH]; [done|]. simpl map. rewrite !filter_cons, IH.
  rewrite lower_eqb_nil, (lower_eqb_one s "." lower_ascii_eqb_dot eq_refl).
  by destruct (decide _).
Qed.

Lemma lower_head {A} (X Y : A) (s : string) :
  match lower s with String "/" _ => X | _ => Y end =
  match s with String "/" _ => X | _ => Y end.
Proof.
  destruct s as [|a s]; [done|].
  destruct (kelvin_head (String a s)) eqn:Hhead.
  - destruct s as [|b [|c s]]; [done..|]. rewrite lower_kelvin by done.
    apply is_kelvin_bytes in Hhead as (-> & _). reflexivity.
  - rewrite lower_plain by done. by destruct a as [[] [] [] [] [] [] [] []].
Qed.

Lemma Path_of_lower (s : string) : Path_of (lower s) = map lower (Path_of s).
Proof.
  unfold Path_of. rewrite split_lower, map_app, filter_parts_lower. f_equal.
  rewrite (lower_head ["/"%string] []).
  by destruct s as [|[[] [] [] [] [] [] [] []] s].
Qed.

Lemma name_lower (p : Path) : name (map lower p) = lower (name p).
Proof.
  unfold name.
  assert (Hlast : last (map lower p) = lower <$> last p).
  { induction p as [|a [|b p] IH]; [done..|]. exact IH. }
  rewrite Hlast. destruct (last p) as [n|]; simpl; [|done].
  rewrite (lower_eqb_one n "/" lower_ascii_eqb_slash eq_refl).
  by destruct (String.eqb n "/").
Qed.

Lemma rfind_split (c : ascii) (n : string) (i : nat) :
  rfind c n = Some i ->
  exists pre post, n = pre +:+ String c post /\ String.length pre = i /\ rfind c post = None.
Proof.
  revert i. induction n as [|a n IH]; intros i; simpl; [done|].
  destruct (rfind c n) as [j|] eqn:Hrest.
  - intros [= <-]. destruct (IH j eq_refl) as (pre & post & -> & <- & Hpost).
    by exists (String a pre), post.
  - destruct (Ascii.eqb a c) eqn:Ha; [|done]. intros [= <-].
    apply Ascii.eqb_eq in Ha as ->. by exists EmptyString, n.
Qed.

Lemma rfind_lower_none (s : string) : rfind "." s = None -> rfind "." (lower s) = None.
Proof.
  induction s as [|a b c s Hk IH|a s Hhead IH] using kelvin_ind; [done|..].
  - rewrite lower_kelvin by done. cbn [rfind].
    destruct (rfind "." s); [done|]. intros _. by rewrite IH.
  - rewrite lower_plain by done. cbn [rfind].
    destruct (rfind "." s); [done|]. rewrite IH, lower_ascii_eqb_dot by done. done.
Qed.

Lemma lower_append_dot (pre post : string) :
  lower (pre +:+ String "." post) = lower pre +:+ String "." (lower post).
Proof.
  induction pre as [|a b c s Hk IH|a s Hhead IH] using kelvin_ind.
  - rewrite !append_nil. apply (lower_plain "." post).
    by destruct post as [|b [|c post]].
  - rewrite !append_cons, !lower_kelvin, append_cons by done. by rewrite IH.
  - rewrite append_cons, (lower_plain a s), append_cons, <- IH by done.
    apply lower_plain. destruct s as [|b [|c s]]; rewrite ?append_cons, ?append_nil.
    + destruct post as [|c post]; [done|]. unfold kelvin_head, is_kelvin.
      change (Ascii.eqb "." _) with false. by rewrite andb_false_r.
    + unfold kelvin_head, is_kelvin. change (Ascii.eqb "." _) with false.
      by rewrite andb_false_r.
    + exact Hhead.
Qed.

Lemma length_lower_pos (s : string) :
  (0 <? String.length (lower s))%nat = (0 <? String.length s)%nat.
Proof.
  destruct s as [|a [|b [|c s]]]; [done..|]. cbn [lower].
  by destruct (is_kelvin a b c).
Qed.

Lemma length_append_cons (s t : string) (c : ascii) :
  String.length (s +:+ String c t) = (String.length s + S (String.length t))%nat.
Proof. by rewrite length_append. Qed.

(** The suffix of a name, from its last dot. *)
Lemma suffix_append_dot (pre post : string) :
  rfind "." post = None ->
  (let n := pre +:+ String "." post in
   match rfind "." n with
   | Some i =>
       if (0 <? i)%nat && (i <? String.length n - 1)%nat
       then substring i (String.length n - i) n
       else EmptyString
   | None => EmptyString
   end) =
  if (0 <? String.length pre)%nat && (0 <? String.length post)%nat
  then String "." post else EmptyString.
Proof.
  intros Hpost. cbn zeta. rewrite rfind_append. cbn [rfind]. rewrite Hpost.
  change (Ascii.eqb "." ".") with true. cbn iota.
  rewrite length_append_cons.
  replace (String.length pre + 0 <? String.length pre + S (String.length post) - 1)%nat
    with (0 <? String.length post)%nat
    by (destruct (Nat.ltb_spec 0 (String.length post));
        symmetry; [apply Nat.ltb_lt | apply Nat.ltb_ge]; lia).
  rewrite Nat.add_0_r.
  destruct (_ && _); [|done].
  replace (String.length pre + S (String.length post) - String.length pre)%nat
    with (String.length (String "." post)) by (simpl; lia).
  rewrite <- (Nat.add_0_r (String.length pre)) at 1.
  rewrite substring_append_skip. apply substring_whole.
Qed.

Lemma suffix_lower (p : Path) : suffix (map lower p) = lower (suffix p).
Proof.
  unfold suffix. rewrite name_lower. generalize (name p). intros n.
  assert (Hcases : rfind "." n = None \/
            exists pre post, n = pre +:+ String "." post /\ rfind "." post = None).
  { destruct (rfind "." n) as [i|] eqn:Hdot; [right | by left].
    apply rfind_split in Hdot as (pre & post & -> & _ & Hpost). eauto. }
  destruct Hcases as [Hnone | (pre & post & -> & Hpost)].
  - by rewrite Hnone, rfind_lower_none.
  - rewrite lower_append_dot.
    pose proof (suffix_append_dot pre post Hpost) as Hn.
    pose proof (suffix_append_dot (lower pre) (lower post) (rfind_lower_none _ Hpost)) as Hl.
    cbn zeta in Hn, Hl. rewrite Hl, Hn, !length_lower_pos.
    destruct (_ && _); [|done]. symmetry. apply (lower_append_dot EmptyString).
Qed.

Section UploadCase.

Variable env : Env.

(** X15.  The check of the file name ignores letter case: two names that
    differ only in the case of their (ASCII) letters are both turned down with
    a 400 or both passed on to the pipeline, and an accepted upload is stored
    under the lower-cased suffix. *)
Theorem upload_gate_ignores_case (w1 w2 : world) (name1 name2 : string)
    (content1 content2 : file) (uuid1 uuid2 : string) :
  lower name1 = lower name2 ->
  rejected (fst (process_upload env w1 name1 content1 uuid1)) =
  rejected (fst (process_upload env w2 name2 content2 uuid2)) /\
  upload_path_of env name1 uuid1 =
    joinpath (UPLOAD_DIR env) (uuid1 +:+ suffix (Path_of (lower name1))).
Proof.
  intros Hcase.
  assert (Hext : forall s, lower (suffix (Path_of s)) = suffix (Path_of (lower s))).
  { intros s. by rewrite Path_of_lower, suffix_lower. }
  split.
  - rewrite !process_upload_rejected, !Hext. by rewrite Hcase.
  - unfold upload_path_of. by rewrite Hext.
Qed.

End UploadCase.

Lemma upload_gate_ignores_case_witness :
  lower "Holiday.MP4" = lower "holiDAY.mp4" /\
  rejected (fst (process_upload demo_env (demo_world 25 []) "Holiday.MP4"
                   (video_file 25 [marked_frame]) "u1")) =
  rejected (fst (process_upload demo_env (demo_world 25 []) "holiDAY.mp4"
                   (video_file 25 [plain_frame]) "u2")).
Proof.
  assert (Hcase : lower "Holiday.MP4" = lower "holiDAY.mp4") by reflexivity.
  split; [exact Hcase|].
  exact (proj1 (upload_gate_ignores_case demo_env _ _ _ _ _ _ _ _ Hcase)).
Defined.

(** ** Pipeline driver: when a job ends well, and what a miss costs *)

Section DriverOutcome.

Variable env : Env.

(** With a detection held and a template that fits in every remaining frame
    the loop runs to the end. *)
Lemma frame_loop_runs (template : gray) (threshold : Q) (writer : VideoWriter)
    (d : WatermarkDetection) (capture : list frame) :
  Forall (fun fr =>
            (fst (shape template) <= fst (shape (cvtColor env fr)))%nat /\
            (snd (shape template) <= snd (shape (cvtColor env fr)))%nat) capture ->
  exists writer', forall w,
    frame_loop env template threshold w writer (Some d) capture = (Ok writer', w).
Proof.
  revert writer d. induction capture as [|fr capture IH]; intros writer d Hfit.
  - by exists writer.
  - apply Forall_cons in Hfit as [Hfr Hfit].
    destruct (detect_fits_ok env (cvtColor env fr) template threshold Hfr)
      as [updated Hdet].
    destruct (IH (write writer (inpaint env fr
                    (_build_inpaint_mask (shape (cvtColor env fr)) (tracker_update d updated))))
                 (tracker_update d updated) Hfit) as [writer' Hrest].
    exists writer'. intros w. rewrite frame_loop_tracked, Hdet. apply Hrest.
Qed.

(** X16.  A job ends well as soon as the opening succeeds, the template fits
    in every frame, the first frame (if there is one) yields a detection, and
    the codec leaves a non-empty file for as many frames as were read: the
    path [output_dir / (stem + "_clean.mp4")] is returned. *)
Theorem process_video_succeeds (w w1 : world) (input_path output_dir : Path)
    (template_path : option Path) (threshold : Q) (j : job) :
  opening env w input_path output_dir template_path = (Ok j, w1) ->
  Forall (fun fr =>
            (fst (shape (j_template j)) <= fst (shape (cvtColor env fr)))%nat /\
            (snd (shape (j_template j)) <= snd (shape (cvtColor env fr)))%nat)
         (frames (j_capture j)) ->
  (forall fr rest, frames (j_capture j) = fr :: rest ->
     exists d, _detect_watermark env (cvtColor env fr) (j_template j) threshold = Ok (Some d)) ->
  (forall written, length written = length (frames (j_capture j)) ->
     encoded_size env (w_fps (j_writer j)) (w_frame_size (j_writer j)) written <> 0%N) ->
  exists w',
    process_video env w input_path output_dir template_path threshold =
      (Ok (output_path_of input_path output_dir), w').
Proof.
  intros Hopen Hfit Hfirst Hsize. unfold process_video. rewrite Hopen.
  assert (Hloop : exists writer', forall w0,
            frame_loop env (j_template j) threshold w0 (j_writer j) None
              (frames (j_capture j)) = (Ok writer', w0)).
  { destruct (frames (j_capture j)) as [|fr rest] eqn:Hframes; [by exists (j_writer j)|].
    destruct (Hfirst fr rest eq_refl) as [d Hdet].
    apply Forall_cons in Hfit as [_ Hfit].
    destruct (frame_loop_runs (j_template j) threshold
                (write (j_writer j) (inpaint env fr
                   (_build_inpaint_mask (shape (cvtColor env fr)) d))) d rest Hfit)
      as [writer' Hrest].
    exists writer'. intros w0. simpl. rewrite Hdet. apply Hrest. }
  destruct Hloop as [writer' Hloop]. rewrite (Hloop w1).
  pose proof (frame_loop_ok env _ _ _ _ _ _ _ _ (Hloop w1)) as (_ & Hp & Hf & Hs & Hlen & _).
  apply opening_ok in Hopen as (_ & _ & _ & Hw & _).
  assert (Hempty : w_frames (j_writer j) = []) by (by rewrite Hw).
  rewrite Hempty in Hlen. simpl in Hlen.
  unfold finalizing. simpl. rewrite lookup_insert_eq. simpl.
  rewrite Hf, Hs.
  destruct (encoded_size env _ _ _ =? 0)%N eqn:Hz.
  - apply N.eqb_eq in Hz. by apply Hsize in Hz.
  - rewrite Hp, Hw. simpl. eauto.
Qed.

(** X17.  After the first-frame failure the files are the files from before
    the job without the one at the output path: nothing of the job is left,
    and a file that was at that path before (an earlier output for the same
    stem) is gone as well. *)
Theorem not_found_deletes_output_path (w w' : world) (input_path output_dir : Path)
    (template_path : option Path) (threshold : Q) :
  process_video env w input_path output_dir template_path threshold =
    (Raise (WatermarkRemovalError msg_not_found), w') ->
  files w' = delete (output_path_of input_path output_dir) (files w).
Proof.
  intros Hrun.
  apply process_video_raise_cases in Hrun
    as [[_ Hearly] | [[He _] | [[He _] | [[_ Hfiles] | [He _]]]]].
  - repeat destruct Hearly as [Hearly | Hearly]; vm_compute in Hearly; discriminate Hearly.
  - vm_compute in He. discriminate He.
  - discriminate He.
  - exact Hfiles.
  - vm_compute in He. discriminate He.
Qed.

End DriverOutcome.

Lemma process_video_succeeds_witness :
  let w := demo_world 25 [marked_frame; plain_frame] in
  let j := {| j_template := checker;
              j_capture := {| CAP_PROP_FPS := 25; CAP_PROP_FRAME_WIDTH := 5;
                              CAP_PROP_FRAME_HEIGHT := 4;
                              frames := [marked_frame; plain_frame] |};
              j_writer := {| w_path := output_path_of demo_input demo_outputs; w_fps := 25;
                             w_frame_size := (5, 4)%Z; w_frames := [] |} |} in
  fst (opening demo_env w demo_input demo_outputs None) = Ok j /\
  exists w' : world,
    process_video demo_env w demo_input demo_outputs None (35 # 100) =
      (Ok (output_path_of demo_input demo_outputs), w').
Proof.
  intros w j.
  assert (Hopen : fst (opening demo_env w demo_input demo_outputs None) = Ok j)
    by (vm_compute; reflexivity).
  split; [exact Hopen|].
  apply (process_video_succeeds demo_env w (snd (opening demo_env w demo_input demo_outputs None))
           demo_input demo_outputs None (35 # 100) j (run_pair _ _ Hopen)).
  - repeat constructor; vm_compute; lia.
  - intros fr rest [= <- _]. eexists. vm_compute. reflexivity.
  - intros [|f0 [|f1 [|f2 written]]] Hlen; simpl in Hlen; try lia. by vm_compute.
Defined.

Lemma not_found_deletes_output_path_witness :
  let w := put_file (output_path_of demo_input demo_outputs) (image_file checker)
             (demo_world 25 [plain_frame; marked_frame]) in
  let run := process_video demo_env w demo_input demo_outputs None (35 # 100) in
  is_Some (files w !! output_path_of demo_input demo_outputs) /\
  fst run = Raise (WatermarkRemovalError msg_not_found) /\
  files (snd run) = delete (output_path_of demo_input demo_outputs) (files w).
Proof.
  intros w run.
  assert (Hrun : fst run = Raise (WatermarkRemovalError msg_not_found))
    by (vm_compute; reflexivity).
  split; [by vm_compute; eauto|]. split; [exact Hrun|].
  exact (not_found_deletes_output_path demo_env w (snd run) demo_input demo_outputs None
           (35 # 100) (run_pair_raise run _ Hrun)).
Defined.
